(** * node-experiment: the stream-to-message layer of the TCP servers

    Shallow embedding of [src/node_server/index.ts] (the HTTP server) and of
    the earlier echo server ([src/unnamed/part_000]): the growable byte
    accumulator [DynBuf], the promise wrapper around the socket
    ([soInit], [soRead]), the two framers ([cutMessage]) and the body
    readers.

    Conventions
    - a [Buffer] is the list of its bytes, and its capacity the length of
      that list; [Buffer.alloc] is taken to succeed (no allocation limit);
    - a JS [number] holding a length or an index is a [Z]: the values met
      here are integers, and those the theorems compute with are far inside
      the exact range of a double;
    - a JS string is the list of its UTF-16 code units;
    - a function that can [throw] returns an [Outcome]; one that also
      mutates the accumulator or the connection returns the new state with
      it, also when it throws;
    - a promise is a cell of the [World], settled at most once; [await] is
      the delivery of the transport's next events to the handlers that
      [soInit] registers. *)

From Stdlib Require Import ZArith List Bool Lia Strings.String Strings.Byte.
From Stdlib Require Import Numbers.DecimalString Numbers.DecimalPos.
Import ListNotations.
Local Open Scope Z_scope.

(** ** Runtime model: the Node/ECMAScript built-ins the servers call *)

Definition Buffer := list byte.
Definition JSString := list N.

Inductive Exn : Type :=
| HTTPError (code : Z) (message : JSString)
| RangeError
| TransportError (id : nat).

Inductive Outcome (A : Type) : Type :=
| Ok (a : A)
| Throw (e : Exn)
| Hang.
Arguments Ok {A} a.
Arguments Throw {A} e.
Arguments Hang {A}.

Module JS.

(** [Buffer.from("...")] for a literal of the source (ASCII only). *)
Definition bytes (s : string) : Buffer := list_byte_of_string s.

(** A string literal of the source (ASCII only). *)
Definition str (s : string) : JSString := map Byte.to_N (list_byte_of_string s).

Definition blen (b : Buffer) : Z := Z.of_nat (List.length b).

(** [Buffer.alloc(n)]: [n] zero bytes. *)
Definition alloc (n : Z) : Buffer := repeat x00 (Z.to_nat n).

(** Relative index of [subarray] and [copyWithin]: a negative index counts
    from the end, and the result is clamped to [0, len]. *)
Definition relIndex (len i : Z) : Z :=
  if i <? 0 then Z.max (len + i) 0 else Z.min i len.

(** [b.subarray(s, e)], read at once (the bytes the view shows now). *)
Definition subarray (b : Buffer) (s e : Z) : Buffer :=
  let len := blen b in
  let s' := relIndex len s in
  let e' := relIndex len e in
  firstn (Z.to_nat (e' - s')) (skipn (Z.to_nat s') b).

(** [b.copyWithin(target, start, end)]: a memmove inside [b]. *)
Definition copyWithin (b : Buffer) (target start end_ : Z) : Buffer :=
  let len := blen b in
  let to := relIndex len target in
  let from := relIndex len start in
  let final := relIndex len end_ in
  let count := Z.min (final - from) (len - to) in
  if 0 <? count then
    firstn (Z.to_nat to) b
      ++ firstn (Z.to_nat count) (skipn (Z.to_nat from) b)
      ++ skipn (Z.to_nat (to + count)) b
  else b.

(** [source.copy(target, targetStart, sourceStart)]: the target after the
    call, or [None] when Node throws ERR_OUT_OF_RANGE (a negative
    [targetStart], a [sourceStart] outside the source). *)
Definition copy (source target : Buffer) (targetStart sourceStart : Z)
  : option Buffer :=
  if (targetStart <? 0) || (sourceStart <? 0) || (blen source <? sourceStart)
  then None
  else if (blen target <=? targetStart) || (blen source <=? sourceStart)
  then Some target
  else
    let nb := Z.min (blen source - sourceStart) (blen target - targetStart) in
    Some (firstn (Z.to_nat targetStart) target
            ++ firstn (Z.to_nat nb) (skipn (Z.to_nat sourceStart) source)
            ++ skipn (Z.to_nat (targetStart + nb)) target).

Fixpoint isPrefix {A : Type} (eqb : A -> A -> bool) (pat l : list A) : bool :=
  match pat, l with
  | [], _ => true
  | _ :: _, [] => false
  | p :: pat', x :: l' => eqb p x && isPrefix eqb pat' l'
  end.

Fixpoint indexOfFrom (b pat : Buffer) (i : Z) : Z :=
  match b with
  | [] => match pat with [] => i | _ :: _ => -1 end
  | _ :: b' => if isPrefix Byte.eqb pat b then i else indexOfFrom b' pat (i + 1)
  end.

(** [b.indexOf(pat)]: index of the first occurrence, [-1] when absent. *)
Definition indexOf (b pat : Buffer) : Z := indexOfFrom b pat 0.

(** [b[i]]: [None] is [undefined] (index outside the buffer). *)
Definition at_ (b : Buffer) (i : Z) : option byte :=
  if i <? 0 then None else nth_error b (Z.to_nat i).

(** *** Text: UTF-8 decoding and encoding, [split], [parseInt] *)

Definition byteOfN (n : N) : byte :=
  match Byte.of_N (n mod 256) with Some b => b | None => x00 end.

(** State of the UTF-8 decoder (bytes still needed, code point so far and
    the range allowed for the next byte), as in the WHATWG Encoding
    Standard, which [buf.toString()] follows: an ill-formed sequence
    decodes to U+FFFD. *)
Record Utf8State : Type :=
  mkUtf8 { needed : N; codepoint : N; lower : N; upper : N }.

Definition utf8Start : Utf8State := mkUtf8 0 0 0x80 0xBF.

Definition utf8Lead (b : N) : list N * Utf8State :=
  (if b <=? 0x7F then ([b], utf8Start)
   else if (0xC2 <=? b) && (b <=? 0xDF)
   then ([], mkUtf8 1 (N.land b 0x1F) 0x80 0xBF)
   else if (0xE0 <=? b) && (b <=? 0xEF)
   then ([], mkUtf8 2 (N.land b 0xF)
               (if b =? 0xE0 then 0xA0 else 0x80)
               (if b =? 0xED then 0x9F else 0xBF))
   else if (0xF0 <=? b) && (b <=? 0xF4)
   then ([], mkUtf8 3 (N.land b 0x7)
               (if b =? 0xF0 then 0x90 else 0x80)
               (if b =? 0xF4 then 0x8F else 0xBF))
   else ([0xFFFD], utf8Start))%N.

Definition utf8Step (st : Utf8State) (b : N) : list N * Utf8State :=
  (if needed st =? 0 then utf8Lead b
   else if (lower st <=? b) && (b <=? upper st) then
     let cp := N.lor (N.shiftl (codepoint st) 6) (N.land b 0x3F) in
     if needed st =? 1 then ([cp], utf8Start)
     else ([], mkUtf8 (needed st - 1) cp 0x80 0xBF)
   else let '(out, st') := utf8Lead b in (0xFFFD :: out, st'))%N.

Fixpoint utf8Decode (st : Utf8State) (bs : Buffer) : list N :=
  match bs with
  | [] => if (needed st =? 0)%N then [] else [0xFFFD%N]
  | b :: bs' =>
      let '(out, st') := utf8Step st (Byte.to_N b) in
      out ++ utf8Decode st' bs'
  end.

Definition utf16Units (cp : N) : list N :=
  (if cp <? 0x10000 then [cp]
   else let c := cp - 0x10000 in
        [0xD800 + N.shiftr c 10; 0xDC00 + N.land c 0x3FF])%N.

(** [buf.toString()] (UTF-8). *)
Definition toString (b : Buffer) : JSString :=
  flat_map utf16Units (utf8Decode utf8Start b).

(** [buf.toString("latin1")]: one code unit per byte. *)
Definition toStringLatin1 (b : Buffer) : JSString := map Byte.to_N b.

Definition utf8Bytes (cp : N) : Buffer :=
  (if cp <? 0x80 then [byteOfN cp]
   else if cp <? 0x800
   then [byteOfN (0xC0 + N.shiftr cp 6); byteOfN (0x80 + N.land cp 0x3F)]
   else if cp <? 0x10000
   then [byteOfN (0xE0 + N.shiftr cp 12);
         byteOfN (0x80 + N.land (N.shiftr cp 6) 0x3F);
         byteOfN (0x80 + N.land cp 0x3F)]
   else [byteOfN (0xF0 + N.shiftr cp 18);
         byteOfN (0x80 + N.land (N.shiftr cp 12) 0x3F);
         byteOfN (0x80 + N.land (N.shiftr cp 6) 0x3F);
         byteOfN (0x80 + N.land cp 0x3F)])%N.

Definition isHighSurrogate (u : N) : bool := ((0xD800 <=? u) && (u <=? 0xDBFF))%N.
Definition isLowSurrogate (u : N) : bool := ((0xDC00 <=? u) && (u <=? 0xDFFF))%N.

(** [Buffer.from(s)] for a string [s] (UTF-8; a lone surrogate is written
    as U+FFFD). *)
Fixpoint fromString (s : JSString) : Buffer :=
  match s with
  | [] => []
  | u :: s' =>
      if isHighSurrogate u then
        match s' with
        | v :: s'' =>
            if isLowSurrogate v
            then utf8Bytes (0x10000 + (u - 0xD800) * 0x400 + (v - 0xDC00))%N
                   ++ fromString s''
            else utf8Bytes 0xFFFD%N ++ fromString s'
        | [] => utf8Bytes 0xFFFD%N
        end
      else if isLowSurrogate u then utf8Bytes 0xFFFD%N ++ fromString s'
      else utf8Bytes u ++ fromString s'
  end.

(** [a === b] on strings. *)
Fixpoint strEq (a b : JSString) : bool :=
  match a, b with
  | [], [] => true
  | x :: a', y :: b' => (x =? y)%N && strEq a' b'
  | _, _ => false
  end.

(** The scan of [s.split(sep)] for a non-empty [sep]: [cur] is the segment
    being read (reversed), [skip] the code units of a separator just
    matched that are still to pass. *)
Fixpoint splitGo (sep s cur : JSString) (skip : nat) : list JSString :=
  match s with
  | [] => [rev cur]
  | c :: s' =>
      match skip with
      | S k => splitGo sep s' cur k
      | O =>
          if isPrefix N.eqb sep s
          then rev cur :: splitGo sep s' [] (List.length sep - 1)
          else splitGo sep s' (c :: cur) 0
      end
  end.

(** [s.split(sep)]. *)
Definition split (s sep : JSString) : list JSString :=
  match sep with
  | [] => map (fun c => [c]) s
  | _ :: _ => splitGo sep s [] 0
  end.

(** White space and line terminators skipped by [parseInt]. *)
Definition isWhiteSpace (c : N) : bool :=
  ((9 <=? c) && (c <=? 13) || (c =? 0x20) || (c =? 0xA0) || (c =? 0x1680)
   || (0x2000 <=? c) && (c <=? 0x200A) || (c =? 0x2028) || (c =? 0x2029)
   || (c =? 0x202F) || (c =? 0x205F) || (c =? 0x3000) || (c =? 0xFEFF))%N.

Fixpoint trimStart (s : JSString) : JSString :=
  match s with
  | c :: s' => if isWhiteSpace c then trimStart s' else s
  | [] => []
  end.

Definition digitValue (radix c : N) : option N :=
  (let v := if (48 <=? c) && (c <=? 57) then Some (c - 48)
            else if (97 <=? c) && (c <=? 122) then Some (c - 97 + 10)
            else if (65 <=? c) && (c <=? 90) then Some (c - 65 + 10)
            else None in
   match v with
   | Some d => if d <? radix then Some d else None
   | None => None
   end)%N.

Fixpoint digits (radix : N) (s : JSString) (acc : option N) : option N :=
  match s with
  | [] => acc
  | c :: s' =>
      match digitValue radix c with
      | Some d =>
          digits radix s'
            (Some (match acc with Some a => a * radix + d | None => d end)%N)
      | None => acc
      end
  end.

(** [parseInt(s)]: [None] is [NaN]; otherwise the integer the digits
    denote. That integer is what JS returns when its magnitude is at most
    [2^53]; above, JS returns a double near it, of the same sign, and the
    results stated about the value itself keep to that range. *)
Definition parseInt (s : JSString) : option Z :=
  let s1 := trimStart s in
  let '(neg, s2) :=
    match s1 with
    | c :: r => if (c =? 45)%N then (true, r)
                else if (c =? 43)%N then (false, r) else (false, s1)
    | [] => (false, s1)
    end in
  let '(radix, s3) :=
    match s2 with
    | z :: x :: r =>
        if ((z =? 48) && ((x =? 120) || (x =? 88)))%N then (16%N, r)
        else (10%N, s2)
    | _ => (10%N, s2)
    end in
  match digits radix s3 None with
  | None => None
  | Some n => Some (if neg : bool then - Z.of_N n else Z.of_N n)
  end.

End JS.

(** ** The byte accumulator *)

Module DynBuf.
Record t : Type := mk { data : Buffer; length : Z }.
End DynBuf.
Abbreviation DynBuf := DynBuf.t.

(** The live region [buf.data.subarray(0, buf.length)]. *)
Definition live (buf : DynBuf) : Buffer :=
  JS.subarray (DynBuf.data buf) 0 (DynBuf.length buf).

Definition capacity (buf : DynBuf) : Z := JS.blen (DynBuf.data buf).

(** [while (cap < newLen) cap *= 2]. *)
Fixpoint growLoop (fuel : nat) (cap newLen : Z) : Z :=
  match fuel with
  | O => cap
  | S fuel' => if cap <? newLen then growLoop fuel' (cap * 2) newLen else cap
  end.

(** The [if] block of [bufPush]: [buf.data] replaced by a larger zeroed
    buffer holding the old bytes, when [newLen] does not fit. *)
Definition reserve (buf : DynBuf) (newLen : Z) : option DynBuf :=
  if JS.blen (DynBuf.data buf) <? newLen then
    let cap := Z.max (JS.blen (DynBuf.data buf)) 32 in
    let cap := growLoop (Z.to_nat newLen) cap newLen in
    let grown := JS.alloc cap in
    match JS.copy (DynBuf.data buf) grown 0 0 with
    | Some grown' => Some (DynBuf.mk grown' (DynBuf.length buf))
    | None => None
    end
  else Some buf.

(** [bufPush]: the accumulator after the call, with what the call did
    (returned, or threw from [Buffer.copy]). *)
Definition bufPush (buf : DynBuf) (data : Buffer) : Outcome unit * DynBuf :=
  let newLen := DynBuf.length buf + JS.blen data in
  match reserve buf newLen with
  | None => (Throw RangeError, buf)
  | Some buf1 =>
      match JS.copy data (DynBuf.data buf1) (DynBuf.length buf1) 0 with
      | Some d => (Ok tt, DynBuf.mk d newLen)
      | None => (Throw RangeError, buf1)
      end
  end.

(** [bufPop]: remove data from the front. *)
Definition bufPop (buf : DynBuf) (len : Z) : DynBuf :=
  let d := JS.copyWithin (DynBuf.data buf) 0 len (DynBuf.length buf) in
  DynBuf.mk d (DynBuf.length buf - len).

(** The accumulator [serveClient] starts from. *)
Definition emptyBuf : DynBuf := DynBuf.mk (JS.alloc 0) 0.



(** ** The promise wrapper around the socket *)

Inductive Settlement : Type :=
| Pending
| Resolved (value : Buffer)
| Rejected (reason : Exn).

Inductive SocketCall : Type := PauseCall | ResumeCall.

(** The socket as the wrapper sees it: the calls made on it, latest first.
    The server is created with [pauseOnConnect: true]. *)
Definition Socket := list SocketCall.

Definition flowing (sock : Socket) : bool :=
  match sock with
  | ResumeCall :: _ => true
  | _ => false
  end.

Module TCPConn.
Record t : Type :=
  mk { socket : Socket; err : option Exn; ended : bool; reader : option nat }.
End TCPConn.
Abbreviation TCPConn := TCPConn.t.

(** A connection with the promises created so far ([reader] names one of
    them by its position). *)
Record World : Type := mkWorld { conn : TCPConn; promises : list Settlement }.

Definition promiseState (p : nat) (w : World) : Settlement :=
  nth p (promises w) Pending.

Fixpoint setNth {A : Type} (n : nat) (x : A) (l : list A) : list A :=
  match l, n with
  | [], _ => []
  | _ :: l', O => x :: l'
  | y :: l', S n' => y :: setNth n' x l'
  end.

(** Calling [resolve] or [reject] of a promise: only the first call counts. *)
Definition settle (p : nat) (s : Settlement) (w : World) : World :=
  match promiseState p w with
  | Pending => mkWorld (conn w) (setNth p s (promises w))
  | _ => w
  end.

Definition settleReader (s : Settlement) (w : World) : World :=
  match TCPConn.reader (conn w) with
  | Some p => settle p s w
  | None => w
  end.

Definition withConn (f : TCPConn -> TCPConn) (w : World) : World :=
  mkWorld (f (conn w)) (promises w).

Definition soInit (sock : Socket) : World :=
  mkWorld (TCPConn.mk sock None false None) [].

Inductive Event : Type :=
| DataEvent (data : Buffer)
| ErrorEvent (e : Exn)
| EndEvent.

(** The three handlers [soInit] registers on the socket. *)
Definition onData (data : Buffer) (w : World) : World :=
  let w := withConn (fun c => TCPConn.mk (PauseCall :: TCPConn.socket c)
                       (TCPConn.err c) (TCPConn.ended c) (TCPConn.reader c)) w in
  let w := settleReader (Resolved data) w in
  withConn (fun c => TCPConn.mk (TCPConn.socket c) (TCPConn.err c)
              (TCPConn.ended c) None) w.

Definition onError (e : Exn) (w : World) : World :=
  let w := withConn (fun c => TCPConn.mk (TCPConn.socket c) (Some e)
                       (TCPConn.ended c) (TCPConn.reader c)) w in
  let w := settleReader (Rejected e) w in
  withConn (fun c => TCPConn.mk (TCPConn.socket c) (TCPConn.err c)
              (TCPConn.ended c) None) w.

Definition onEnd (w : World) : World :=
  let w := withConn (fun c => TCPConn.mk (TCPConn.socket c) (TCPConn.err c)
                       true (TCPConn.reader c)) w in
  let w := settleReader (Resolved (JS.bytes "EOF")) w in
  withConn (fun c => TCPConn.mk (TCPConn.socket c) (TCPConn.err c)
              (TCPConn.ended c) None) w.

Definition dispatch (ev : Event) (w : World) : World :=
  match ev with
  | DataEvent data => onData data w
  | ErrorEvent e => onError e w
  | EndEvent => onEnd w
  end.

(** [soRead]: the new promise and the state after its executor has run. *)
Definition soRead (w : World) : nat * World :=
  let p := List.length (promises w) in
  let w := mkWorld (conn w) (promises w ++ [Pending]) in
  match TCPConn.err (conn w) with
  | Some e => (p, settle p (Rejected e) w)
  | None =>
      let w := if TCPConn.ended (conn w)
               then settle p (Resolved (JS.bytes "EOF")) w else w in
      let w := withConn (fun c => TCPConn.mk (TCPConn.socket c) (TCPConn.err c)
                           (TCPConn.ended c) (Some p)) w in
      let w := withConn (fun c => TCPConn.mk (ResumeCall :: TCPConn.socket c)
                           (TCPConn.err c) (TCPConn.ended c) (TCPConn.reader c)) w in
      (p, w)
  end.

(** The transport hands its events to the handlers, in order, until the
    promise [p] is settled. A paused socket emits neither data nor end;
    [Pending] in the result means that [p] never settles. *)
Fixpoint deliver (p : nat) (incoming : list Event) (w : World)
  : Settlement * list Event * World :=
  match incoming with
  | [] => (Pending, [], w)
  | ev :: incoming' =>
      if match ev with
         | ErrorEvent _ => true
         | _ => flowing (TCPConn.socket (conn w))
         end
      then
        let w' := dispatch ev w in
        match promiseState p w' with
        | Pending => deliver p incoming' w'
        | s => (s, incoming', w')
        end
      else (Pending, incoming, w)
  end.

(** [await p]: the value of a settled promise, or what the events to come
    settle it with. *)
Definition await (p : nat) (incoming : list Event) (w : World)
  : Settlement * list Event * World :=
  match promiseState p w with
  | Pending => deliver p incoming w
  | s => (s, incoming, w)
  end.

(** ** The echo server ([src/unnamed/part_000]) *)

Module LineServer.

(** [cutMessage]: messages are separated by a newline. *)
Definition cutMessage (buf : DynBuf) : Outcome (option Buffer) * DynBuf :=
  let idx := JS.indexOf (JS.subarray (DynBuf.data buf) 0 (DynBuf.length buf))
               [x0a] in
  if idx <? 0 then (Ok None, buf)
  else
    let msg := JS.subarray (DynBuf.data buf) 0 (idx + 1) in
    (Ok (Some msg), bufPop buf (idx + 1)).

End LineServer.

(** ** The HTTP server ([src/node_server/index.ts]) *)

Module HttpServer.

(** A parsed request. In the source [headers] holds views of [buf.data];
    the record holds the bytes they show when the request is built. *)
Module HTTPReq.
Record t : Type :=
  mk { method : JSString; uri : Buffer; version : JSString;
       headers : list Buffer }.
End HTTPReq.
Abbreviation HTTPReq := HTTPReq.t.

(** What the [read] closure of a body reader has captured. *)
Inductive ReadState : Type :=
| FromConnLength (remain : Z)
| FromMemory (data : Buffer) (isDone : bool).

Module BodyReader.
Record t : Type := mk { length : Z; read : ReadState }.
End BodyReader.
Abbreviation BodyReader := BodyReader.t.

Definition CR : byte := x0d.
Definition LF : byte := x0a.

(** The bytes of the string ["\r\n\r\n"]. *)
Definition splitter : Buffer := [CR; LF; CR; LF].
Definition kMaxHeaderLen : Z := 1024 * 8.

Definition byteIs (o : option byte) (b : byte) : bool :=
  match o with
  | Some x => Byte.eqb x b
  | None => false
  end.

(** The [for] loop of [splitLines]; every round advances [i], so
    [buf.length] rounds are enough to leave it. *)
Fixpoint splitLinesLoop (fuel : nat) (buf : Buffer) (i start : Z)
    (lines : list Buffer) : list Buffer :=
  match fuel with
  | O => lines
  | S fuel' =>
      if i <? JS.blen buf - 1 then
        if byteIs (JS.at_ buf i) x0d && byteIs (JS.at_ buf (i + 1)) x0a then
          let lines := lines ++ [JS.subarray buf start i] in
          let i := i + 1 in
          let start := i + 1 in
          splitLinesLoop fuel' buf (i + 1) start lines
        else splitLinesLoop fuel' buf (i + 1) start lines
      else lines
  end.

Definition splitLines (buf : Buffer) : list Buffer :=
  splitLinesLoop (List.length buf) buf 0 0 [].

(** What [splitLines] computes, by recursion on the bytes: [cur] is the
    line being read (reversed); every CR LF closes a line, and bytes after
    the last CR LF are dropped. *)
Fixpoint linesOf (bs cur : Buffer) : list Buffer :=
  match bs with
  | [] => []
  | b1 :: tl =>
      match tl with
      | [] => []
      | b2 :: rest =>
          if Byte.eqb b1 x0d && Byte.eqb b2 x0a
          then rev cur :: linesOf rest []
          else linesOf tl (b1 :: cur)
      end
  end.

(** [key && value] and [!x]: [undefined] and the empty string are falsy. *)
Definition truthy (o : option JSString) : bool :=
  match o with
  | Some (_ :: _) => true
  | _ => false
  end.

Definition validateHeader (header : Buffer) : bool :=
  let parts := JS.split (JS.toString header) (JS.str ": ") in
  let key := nth_error parts 0 in
  let value := nth_error parts 1 in
  truthy key && truthy value.

(** The header loop of [parseHTTPReq], over [lines[1..]]. *)
Fixpoint headerLoop (lines headers : list Buffer) : Outcome (list Buffer) :=
  match lines with
  | [] => Ok headers
  | line :: lines' =>
      if negb (validateHeader line)
      then Throw (HTTPError 400
                    (JS.str "Invalid header, line: " ++ JS.toString line))
      else headerLoop lines' (headers ++ [line])
  end.

(** String concatenation with a value that may be [undefined]. *)
Definition shown (o : option JSString) : JSString :=
  match o with
  | Some s => s
  | None => JS.str "undefined"
  end.

Definition parseHTTPReq (buf : Buffer) : Outcome HTTPReq :=
  let lines := splitLines buf in
  let firstLine := nth_error lines 0 in
  let parts := match firstLine with
               | Some l => JS.split (JS.toString l) (JS.str " ")
               | None => []
               end in
  let method := nth_error parts 0 in
  let uri := nth_error parts 1 in
  let version := nth_error parts 2 in
  match headerLoop (skipn 1 lines) [] with
  | Ok headers =>
      match method, uri, version with
      | Some m, Some u, Some v =>
          if truthy method && truthy uri && truthy version
          then Ok (HTTPReq.mk m (JS.fromString u) v headers)
          else Throw (HTTPError 400
                        (JS.str "Invalid request, method: " ++ shown method
                         ++ JS.str ", uri: " ++ shown uri
                         ++ JS.str ", version: " ++ shown version))
      | _, _, _ =>
          Throw (HTTPError 400
                   (JS.str "Invalid request, method: " ++ shown method
                    ++ JS.str ", uri: " ++ shown uri
                    ++ JS.str ", version: " ++ shown version))
      end
  | Throw e => Throw e
  | Hang => Hang
  end.

(** [cutMessage]: what the call did and the accumulator after it. *)
Definition cutMessage (buf : DynBuf) : Outcome (option HTTPReq) * DynBuf :=
  let idx := JS.indexOf (JS.subarray (DynBuf.data buf) 0 (DynBuf.length buf))
               splitter in
  if idx <? 0 then
    if kMaxHeaderLen <? DynBuf.length buf
    then (Throw (HTTPError 413 (JS.str "Request Header Fields Too Large")), buf)
    else (Ok None, buf)
  else
    match parseHTTPReq (JS.subarray (DynBuf.data buf) 0 (idx + 4)) with
    | Ok msg => (Ok (Some msg), bufPop buf (idx + 1))
    | Throw e => (Throw e, buf)
    | Hang => (Hang, buf)
    end.

Fixpoint fieldGet (headers : list Buffer) (field : JSString) : option Buffer :=
  match headers with
  | [] => None
  | header :: headers' =>
      let parts := JS.split (JS.toString header) (JS.str ": ") in
      let key := nth_error parts 0 in
      let value := nth_error parts 1 in
      if match key with Some k => JS.strEq k field | None => false end
      then Some (JS.fromString (match value with Some v => v | None => [] end))
      else fieldGet headers' field
  end.

Definition readerFromConnLength (remain : Z) : BodyReader :=
  BodyReader.mk remain (FromConnLength remain).

Definition readerFromMemory (data : Buffer) : BodyReader :=
  BodyReader.mk (JS.blen data) (FromMemory data false).

(** [fieldGet(req.headers, "Transfer-Encoding")?.toString() === "chunked"
    || false]. *)
Definition isChunked (headers : list Buffer) : bool :=
  match fieldGet headers (JS.str "Transfer-Encoding") with
  | Some v => JS.strEq (JS.toString v) (JS.str "chunked")
  | None => false
  end.

(** [readerFromReq]: [conn] and [buf] are only captured by the reader, the
    result depends on the request alone. *)
Definition readerFromReq (req : HTTPReq) : Outcome BodyReader :=
  let contentLen := fieldGet (HTTPReq.headers req) (JS.str "Content-Length") in
  let parsed :=
    match contentLen with
    | Some c =>
        match JS.parseInt (JS.toStringLatin1 c) with
        | Some n => Ok n
        | None => Throw (HTTPError 400 (JS.str "bad Content-Length."))
        end
    | None => Ok (-1)
    end in
  match parsed with
  | Ok bodyLen =>
      let bodyAllowed :=
        negb (JS.strEq (HTTPReq.method req) (JS.str "GET")
              || JS.strEq (HTTPReq.method req) (JS.str "HEAD")) in
      let chunked := isChunked (HTTPReq.headers req) in
      if negb bodyAllowed && ((0 <? bodyLen) || chunked)
      then Throw (HTTPError 400 (JS.str "HTTP body not allowed."))
      else
        let bodyLen := if negb bodyAllowed then 0 else bodyLen in
        if 0 <=? bodyLen then Ok (readerFromConnLength bodyLen)
        else if chunked
        then Throw (HTTPError 501 (JS.str "TODO for chunked encoding"))
        else Throw (HTTPError 501 (JS.str "TODO for EOF"))
  | Throw e => Throw e
  | Hang => Hang
  end.

(** What a body reader runs in: the connection, what the transport will
    still deliver, and the accumulator. *)
Record Session : Type :=
  mkSession { world : World; incoming : list Event; buf : DynBuf }.

(** The refill of [read]: [await soRead(conn)], then [bufPush]. *)
Definition refill (s : Session) : Outcome unit * Session :=
  let '(p, w) := soRead (world s) in
  match await p (incoming s) w with
  | (Resolved data, evs, w') =>
      match bufPush (buf s) data with
      | (Ok _, buf') =>
          if JS.blen data =? 0
          then (Throw (HTTPError 400 (JS.str "Unexpected EOF in request body")),
                mkSession w' evs buf')
          else (Ok tt, mkSession w' evs buf')
      | (Throw e, buf') => (Throw e, mkSession w' evs buf')
      | (Hang, buf') => (Hang, mkSession w' evs buf')
      end
  | (Rejected e, evs, w') => (Throw e, mkSession w' evs (buf s))
  | (Pending, evs, w') => (Hang, mkSession w' evs (buf s))
  end.

(** One call of [read()]: the chunk, the reader and the session after it.
    In [readerFromConnLength], [result] is a view of [buf.data] taken
    before [bufPop] and copied after it: the chunk is read from the storage
    as [bufPop] left it. *)
Definition read (r : BodyReader) (s : Session)
  : Outcome Buffer * BodyReader * Session :=
  match BodyReader.read r with
  | FromConnLength remain =>
      if remain <=? 0 then (Ok [], r, s)
      else
        let '(filled, s1) :=
          if DynBuf.length (buf s) <=? 0 then refill s else (Ok tt, s) in
        match filled with
        | Ok _ =>
            let consume := Z.min (DynBuf.length (buf s1)) remain in
            let remain := remain - consume in
            let buf' := bufPop (buf s1) consume in
            let result := JS.subarray (DynBuf.data buf') 0 consume in
            (Ok result,
             BodyReader.mk (BodyReader.length r) (FromConnLength remain),
             mkSession (world s1) (incoming s1) buf')
        | Throw e => (Throw e, r, s1)
        | Hang => (Hang, r, s1)
        end
  | FromMemory data isDone =>
      if isDone then (Ok [], r, s)
      else (Ok data, BodyReader.mk (BodyReader.length r) (FromMemory data true), s)
  end.

(** The outcome of the [n]-th later call of [read()] (the next one is
    number 0), whatever the earlier ones did. *)
Fixpoint nthRead (n : nat) (r : BodyReader) (s : Session) : Outcome Buffer :=
  match n with
  | O => fst (fst (read r s))
  | S n' => let '(_, r', s') := read r s in nthRead n' r' s'
  end.

End HttpServer.

(** ** Operation sequences on the accumulator *)

Inductive Op : Type :=
| Push (data : Buffer)
| PopFront (len : Z).

Definition stepOp (op : Op) (buf : DynBuf) : Outcome unit * DynBuf :=
  match op with
  | Push data => bufPush buf data
  | PopFront len => (Ok tt, bufPop buf len)
  end.

(** The calls in order; a call that throws ends the sequence. *)
Fixpoint runOps (ops : list Op) (buf : DynBuf) : Outcome unit * DynBuf :=
  match ops with
  | [] => (Ok tt, buf)
  | op :: ops' =>
      match stepOp op buf with
      | (Ok _, buf') => runOps ops' buf'
      | r => r
      end
  end.

(** Every call made, with the accumulator before and after it. *)
Fixpoint history (ops : list Op) (buf : DynBuf) : list (Op * DynBuf * DynBuf) :=
  match ops with
  | [] => []
  | op :: ops' =>
      let '(o, buf') := stepOp op buf in
      (op, buf, buf') :: match o with
                         | Ok _ => history ops' buf'
                         | _ => []
                         end
  end.

(** The content law in the words of the specification: the bytes pushed, in
    order, minus the prefix popped; [None] once a pop asks for more than is
    there. *)
Fixpoint contentLaw (ops : list Op) (content : Buffer) : option Buffer :=
  match ops with
  | [] => Some content
  | Push data :: ops' => contentLaw ops' (content ++ data)
  | PopFront len :: ops' =>
      if (0 <=? len) && (len <=? JS.blen content)
      then contentLaw ops' (skipn (Z.to_nat len) content)
      else None
  end.

(** A well-formed accumulator: [0 <= length <= capacity]. *)
Definition wellFormed (buf : DynBuf) : Prop :=
  0 <= DynBuf.length buf <= capacity buf.

(** What one call may do to the capacity. *)
Definition capacityStep (op : Op) (before after : DynBuf) : Prop :=
  match op with
  | Push _ =>
      DynBuf.length after <= capacity after
      /\ (capacity after = capacity before
          \/ exists k : nat,
               capacity before < capacity after
               /\ capacity after = Z.max (capacity before) 32 * 2 ^ Z.of_nat k)
  | PopFront _ => capacity after = capacity before
  end.

(** ** Sample inputs *)

Definition CRLF : Buffer := [x0d; x0a].

(** ["GET / HTTP/1.1\r\nHost: x\r\n\r\n"]. *)
Definition sampleRequest : Buffer :=
  JS.bytes "GET / HTTP/1.1" ++ CRLF ++ JS.bytes "Host: x" ++ CRLF ++ CRLF.

(** The accumulator once [sampleRequest] has been pushed into an empty one. *)
Definition sampleAccumulator : DynBuf := snd (bufPush emptyBuf sampleRequest).

(** An accumulator holding 9000 bytes, none of them a newline. *)
Definition longLine : DynBuf := snd (bufPush emptyBuf (repeat x61 (Z.to_nat 9000))).

(** A connection with one read pending when the transport reports the end
    of the stream. *)
Definition endedWhileReading : World := onEnd (snd (soRead (soInit []))).

(** No [":"] among the code units. *)
Definition noColon (s : JSString) : bool :=
  forallb (fun c => negb (c =? 58)%N) s.

(** No [": "] inside the code units. *)
Fixpoint noSeparator (s : JSString) : bool :=
  match s with
  | [] => true
  | _ :: s' => negb (JS.isPrefix N.eqb (JS.str ": ") s) && noSeparator s'
  end.

Definition sampleOps : list Op :=
  [Push (JS.bytes "ab"); Push (JS.bytes "cd"); PopFront 3; Push (JS.bytes "e")].

(** A connection just accepted (paused) on which the transport will deliver
    ["ab"], then ["cde"], then [later], with an empty accumulator. *)
Definition sampleSession (later : list Event) : HttpServer.Session :=
  HttpServer.mkSession (soInit [])
    (DataEvent (JS.bytes "ab") :: DataEvent (JS.bytes "cde") :: later)
    emptyBuf.

Definition getRequest (headers : list Buffer) : HttpServer.HTTPReq :=
  HttpServer.HTTPReq.mk (JS.str "GET") (JS.bytes "/") (JS.str "HTTP/1.1") headers.

(** ** Serving a connection: writes and the two [serveClient] loops *)

(** The state a connection is served in: the reading side, the chunks
    handed to [socket.write] so far (in order), what the transport answers
    to the n-th write ([None]: no error), and whether [socket.destroy()] was
    called. The answer to a write comes before any other event. *)
Record Served : Type :=
  mkServed { session : HttpServer.Session; written : list Buffer;
             acks : nat -> option Exn; destroyed : bool }.

(** How an [async] function ends: it returns, it throws, it waits on a
    promise that never settles, or it is still in its loop when the rounds
    counted by the fuel are over. *)
Inductive Ending (A : Type) : Type :=
| Returned (a : A) (s : Served)
| Raised (e : Exn) (s : Served)
| Waiting (s : Served)
| Running (s : Served).
Arguments Returned {A} a s.
Arguments Raised {A} e s.
Arguments Waiting {A} s.
Arguments Running {A} s.

Definition endState {A : Type} (r : Ending A) : Served :=
  match r with
  | Returned _ s => s
  | Raised _ s => s
  | Waiting s => s
  | Running s => s
  end.

Definition withSession (ss : HttpServer.Session) (s : Served) : Served :=
  mkServed ss (written s) (acks s) (destroyed s).

Definition withBuf (b : DynBuf) (s : Served) : Served :=
  withSession (HttpServer.mkSession (HttpServer.world (session s))
                 (HttpServer.incoming (session s)) b) s.

Definition destroy (s : Served) : Served :=
  mkServed (session s) (written s) (acks s) true.

(** [await soWrite(conn, data)]. *)
Definition soWrite (data : Buffer) (s : Served) : Ending unit :=
  match TCPConn.err (conn (HttpServer.world (session s))) with
  | Some e => Raised e s
  | None =>
      let s' := mkServed (session s) (written s ++ [data]) (acks s) (destroyed s) in
      match acks s (List.length (written s)) with
      | Some e => Raised e s'
      | None => Returned tt s'
      end
  end.

(** [const data = await soRead(conn); bufPush(buf, data)], the start of the
    refill of both loops. *)
Definition receive (s : Served) : Ending Buffer :=
  let ss := session s in
  let '(p, w) := soRead (HttpServer.world ss) in
  match await p (HttpServer.incoming ss) w with
  | (Resolved data, evs, w') =>
      match bufPush (HttpServer.buf ss) data with
      | (Ok _, b) => Returned data (withSession (HttpServer.mkSession w' evs b) s)
      | (Throw e, b) => Raised e (withSession (HttpServer.mkSession w' evs b) s)
      | (Hang, b) => Waiting (withSession (HttpServer.mkSession w' evs b) s)
      end
  | (Rejected e, evs, w') =>
      Raised e (withSession (HttpServer.mkSession w' evs (HttpServer.buf ss)) s)
  | (Pending, evs, w') =>
      Waiting (withSession (HttpServer.mkSession w' evs (HttpServer.buf ss)) s)
  end.

(** What a round of a [while (true)] loop ends with. *)
Inductive Flow : Type := Continue | Return.

(** The state [serveClient] starts in: [soInit(socket)] and an empty
    accumulator. *)
Definition accepted (sock : Socket) (incoming : list Event)
    (acks : nat -> option Exn) : Served :=
  mkServed (HttpServer.mkSession (soInit sock) incoming emptyBuf) [] acks false.

(** [buf.equals(other)]. *)
Fixpoint bufEq (a b : Buffer) : bool :=
  match a, b with
  | [], [] => true
  | x :: a', y :: b' => Byte.eqb x y && bufEq a' b'
  | _, _ => false
  end.

Module EchoServe.

(** One round of the loop of [serveClient] ([src/unnamed/part_000]). *)
Definition serveRound (s : Served) : Ending Flow :=
  match LineServer.cutMessage (HttpServer.buf (session s)) with
  | (Ok None, b) =>
      match receive (withBuf b s) with
      | Returned data s' =>
          if JS.blen data =? 0 then Returned Return s' else Returned Continue s'
      | Raised e s' => Raised e s'
      | Waiting s' => Waiting s'
      | Running s' => Running s'
      end
  | (Ok (Some msg), b) =>
      if bufEq msg (JS.bytes "quit" ++ [x0a]) then
        match soWrite (JS.bytes "Bye." ++ [x0a]) (withBuf b s) with
        | Returned _ s' => Returned Return (destroy s')
        | Raised e s' => Raised e s'
        | Waiting s' => Waiting s'
        | Running s' => Running s'
        end
      else
        match soWrite (JS.bytes "Echo: " ++ msg) (withBuf b s) with
        | Returned _ s' => Returned Continue s'
        | Raised e s' => Raised e s'
        | Waiting s' => Waiting s'
        | Running s' => Running s'
        end
  | (Throw e, b) => Raised e (withBuf b s)
  | (Hang, b) => Waiting (withBuf b s)
  end.

(** The loop, for at most [fuel] rounds. *)
Fixpoint serveLoop (fuel : nat) (s : Served) : Ending unit :=
  match fuel with
  | O => Running s
  | S fuel' =>
      match serveRound s with
      | Returned Continue s' => serveLoop fuel' s'
      | Returned Return s' => Returned tt s'
      | Raised e s' => Raised e s'
      | Waiting s' => Waiting s'
      | Running s' => Running s'
      end
  end.

Definition serveClient (fuel : nat) (sock : Socket) (incoming : list Event)
    (acks : nat -> option Exn) : Ending unit :=
  serveLoop fuel (accepted sock incoming acks).

(** [newConn]: the error is logged, and the socket destroyed in any case. *)
Definition newConn (fuel : nat) (sock : Socket) (incoming : list Event)
    (acks : nat -> option Exn) : Ending unit :=
  match serveClient fuel sock incoming acks with
  | Returned _ s => Returned tt (destroy s)
  | Raised _ s => Returned tt (destroy s)
  | Waiting s => Waiting s
  | Running s => Running s
  end.

End EchoServe.

Module HttpServe.

(** The body of a response: the reader of the request itself (the same
    object, for [/echo]) or a reader of its own. *)
Inductive BodyRef : Type :=
| RequestBody
| OwnBody (r : HttpServer.BodyReader).

Module HTTPRes.
Record t : Type := mk { code : Z; headers : list Buffer; body : BodyRef }.
End HTTPRes.
Abbreviation HTTPRes := HTTPRes.t.

Definition handleReq (req : HttpServer.HTTPReq) : HTTPRes :=
  let resBody :=
    if JS.strEq (JS.toString (HttpServer.HTTPReq.uri req)) (JS.str "/echo")
    then RequestBody
    else OwnBody (HttpServer.readerFromMemory (JS.bytes "hello world." ++ [x0a])) in
  HTTPRes.mk 200 [JS.bytes "Server: my_first_http_server"] resBody.

(** The string of an integer [number]: its decimal digits, which is what
    JS writes for an integer below [10^21]. *)
Definition numberToString (n : Z) : JSString :=
  JS.str (NilZero.string_of_int (Z.to_int n)).

Definition crlf : JSString := [13%N; 10%N].

(** [strings.join(sep)]. *)
Fixpoint join (sep : JSString) (strings : list JSString) : JSString :=
  match strings with
  | [] => []
  | s :: rest =>
      match rest with
      | [] => s
      | _ :: _ => s ++ sep ++ join sep rest
      end
  end.

Definition encodeHTTPRespHeaders (res : HTTPRes) : Buffer :=
  JS.fromString
    (JS.str "HTTP/1.1 200 OK" ++ crlf
     ++ join crlf (map JS.toString (HTTPRes.headers res))
     ++ crlf ++ crlf).

(** The [while] loop of [writeHTTPResp]: the reader as the loop leaves it. *)
Fixpoint writeBody (fuel : nat) (body : HttpServer.BodyReader) (s : Served)
  : Ending HttpServer.BodyReader :=
  match fuel with
  | O => Running s
  | S fuel' =>
      match HttpServer.read body (session s) with
      | (Ok data, body', ss) =>
          if JS.blen data =? 0 then Returned body' (withSession ss s)
          else
            match soWrite data (withSession ss s) with
            | Returned _ s' => writeBody fuel' body' s'
            | Raised e s' => Raised e s'
            | Waiting s' => Waiting s'
            | Running s' => Running s'
            end
      | (Throw e, _, ss) => Raised e (withSession ss s)
      | (Hang, _, ss) => Waiting (withSession ss s)
      end
  end.

(** [writeHTTPResp]; [reqBody] is the reader of the request, which the
    response may share. *)
Definition writeHTTPResp (fuel : nat) (res : HTTPRes)
    (reqBody : HttpServer.BodyReader) (s : Served)
  : Ending HttpServer.BodyReader :=
  let body := match HTTPRes.body res with
              | RequestBody => reqBody
              | OwnBody r => r
              end in
  if HttpServer.BodyReader.length body <? 0
  then Raised (HTTPError 501 (JS.str "TODO for chunked encoding")) s
  else
    let headers :=
      HTTPRes.headers res
        ++ [JS.fromString (JS.str "Content-Length: "
                             ++ numberToString (HttpServer.BodyReader.length body))] in
    let res := HTTPRes.mk (HTTPRes.code res) headers (HTTPRes.body res) in
    match soWrite (encodeHTTPRespHeaders res) s with
    | Returned _ s' => writeBody fuel body s'
    | Raised e s' => Raised e s'
    | Waiting s' => Waiting s'
    | Running s' => Running s'
    end.

(** [while ((await reqBody.read()).length > 0) {}]. *)
Fixpoint drain (fuel : nat) (body : HttpServer.BodyReader) (s : Served)
  : Ending unit :=
  match fuel with
  | O => Running s
  | S fuel' =>
      match HttpServer.read body (session s) with
      | (Ok data, body', ss) =>
          if 0 <? JS.blen data then drain fuel' body' (withSession ss s)
          else Returned tt (withSession ss s)
      | (Throw e, _, ss) => Raised e (withSession ss s)
      | (Hang, _, ss) => Waiting (withSession ss s)
      end
  end.

(** One round of the loop of [serveClient] ([src/node_server/index.ts]);
    [inner] bounds the rounds of the loops inside it. *)
Definition serveRound (inner : nat) (s : Served) : Ending Flow :=
  match HttpServer.cutMessage (HttpServer.buf (session s)) with
  | (Ok None, b) =>
      match receive (withBuf b s) with
      | Returned data s' =>
          if (JS.blen data =? 0)
             && (DynBuf.length (HttpServer.buf (session s')) =? 0)
          then Returned Return s'
          else if JS.blen data =? 0
          then Raised (HTTPError 400 (JS.str "Unexpected EOF")) s'
          else Returned Continue s'
      | Raised e s' => Raised e s'
      | Waiting s' => Waiting s'
      | Running s' => Running s'
      end
  | (Ok (Some msg), b) =>
      match HttpServer.readerFromReq msg with
      | Ok reqBody =>
          let res := handleReq msg in
          match writeHTTPResp inner res reqBody (withBuf b s) with
          | Returned body' s' =>
              let reqBody' := match HTTPRes.body res with
                              | RequestBody => body'
                              | OwnBody _ => reqBody
                              end in
              if JS.strEq (HttpServer.HTTPReq.version msg) (JS.str "1.0")
              then Returned Return s'
              else
                match drain inner reqBody' s' with
                | Returned _ s'' => Returned Continue s''
                | Raised e s'' => Raised e s''
                | Waiting s'' => Waiting s''
                | Running s'' => Running s''
                end
          | Raised e s' => Raised e s'
          | Waiting s' => Waiting s'
          | Running s' => Running s'
          end
      | Throw e => Raised e (withBuf b s)
      | Hang => Waiting (withBuf b s)
      end
  | (Throw e, b) => Raised e (withBuf b s)
  | (Hang, b) => Waiting (withBuf b s)
  end.

Fixpoint serveLoop (fuel inner : nat) (s : Served) : Ending unit :=
  match fuel with
  | O => Running s
  | S fuel' =>
      match serveRound inner s with
      | Returned Continue s' => serveLoop fuel' inner s'
      | Returned Return s' => Returned tt s'
      | Raised e s' => Raised e s'
      | Waiting s' => Waiting s'
      | Running s' => Running s'
      end
  end.

Definition serveClient (fuel inner : nat) (sock : Socket)
    (incoming : list Event) (acks : nat -> option Exn) : Ending unit :=
  serveLoop fuel inner (accepted sock incoming acks).

Definition newConn (fuel inner : nat) (sock : Socket)
    (incoming : list Event) (acks : nat -> option Exn) : Ending unit :=
  match serveClient fuel inner sock incoming acks with
  | Returned _ s => Returned tt (destroy s)
  | Raised _ s => Returned tt (destroy s)
  | Waiting s => Waiting s
  | Running s => Running s
  end.

End HttpServe.

(** The transport acknowledges every write. *)
Definition allAcked : nat -> option Exn := fun _ => None.

(** The lines, each one followed by a newline. *)
Definition nlLines (lines : list Buffer) : Buffer :=
  flat_map (fun l => l ++ [x0a]) lines.

(** ** Vocabulary of the statements *)

(** What the echo server answers to a line. *)
Definition echoOf (line : Buffer) : Buffer :=
  JS.bytes "Echo: " ++ line ++ [x0a].


Definition hello : Buffer := JS.bytes "hello world." ++ [x0a].

(** The header block of an answer to [/echo] whose [Content-Length] is
    written with the bytes [num]. *)
Definition echoHead (num : Buffer) : Buffer :=
  JS.bytes "HTTP/1.1 200 OK" ++ CRLF
    ++ JS.bytes "Server: my_first_http_server" ++ CRLF
    ++ JS.bytes "Content-Length: " ++ num ++ CRLF ++ CRLF.

(** The number that the decimal digits [num] write after [acc]; [None] when
    a byte is not a digit. *)
Fixpoint decimalValue (acc : Z) (num : Buffer) : option Z :=
  match num with
  | [] => Some acc
  | b :: num' =>
      let d := Z.of_N (Byte.to_N b) - 48 in
      if (0 <=? d) && (d <=? 9) then decimalValue (10 * acc + d) num'
      else None
  end.

(** [num] is the decimal writing of the number [n]: digits only, the first
    of them not a zero, of value [n]. *)
Definition writesNumber (num : Buffer) (n : Z) : Prop :=
  hd x00 num <> x30 /\ decimalValue 0 num = Some n.

(** The digits of a decimal numeral of the standard library, as bytes, and
    the number they write after [acc]. *)
Fixpoint uintBytes (d : Decimal.uint) : Buffer :=
  match d with
  | Decimal.Nil => []
  | Decimal.D0 d' => x30 :: uintBytes d'
  | Decimal.D1 d' => x31 :: uintBytes d'
  | Decimal.D2 d' => x32 :: uintBytes d'
  | Decimal.D3 d' => x33 :: uintBytes d'
  | Decimal.D4 d' => x34 :: uintBytes d'
  | Decimal.D5 d' => x35 :: uintBytes d'
  | Decimal.D6 d' => x36 :: uintBytes d'
  | Decimal.D7 d' => x37 :: uintBytes d'
  | Decimal.D8 d' => x38 :: uintBytes d'
  | Decimal.D9 d' => x39 :: uintBytes d'
  end.

Fixpoint uintValue (d : Decimal.uint) (acc : N) : N :=
  match d with
  | Decimal.Nil => acc
  | Decimal.D0 d' => uintValue d' (10 * acc)
  | Decimal.D1 d' => uintValue d' (10 * acc + 1)
  | Decimal.D2 d' => uintValue d' (10 * acc + 2)
  | Decimal.D3 d' => uintValue d' (10 * acc + 3)
  | Decimal.D4 d' => uintValue d' (10 * acc + 4)
  | Decimal.D5 d' => uintValue d' (10 * acc + 5)
  | Decimal.D6 d' => uintValue d' (10 * acc + 6)
  | Decimal.D7 d' => uintValue d' (10 * acc + 7)
  | Decimal.D8 d' => uintValue d' (10 * acc + 8)
  | Decimal.D9 d' => uintValue d' (10 * acc + 9)
  end%N.

(** Code units below 128 only. *)
Definition isAscii (s : JSString) : bool := forallb (fun c => (c <? 128)%N) s.

(** The header block of the answer of the default route. *)
Definition helloHead : Buffer :=
  JS.bytes "HTTP/1.1 200 OK" ++ CRLF
    ++ JS.bytes "Server: my_first_http_server" ++ CRLF
    ++ JS.bytes "Content-Length: 13" ++ CRLF ++ CRLF.

(** The byte [c] does not occur in [b]. *)
Definition noByte (c : byte) (b : Buffer) : bool :=
  forallb (fun x => negb (Byte.eqb x c)) b.

(** The lines, each one followed by CR LF. *)
Definition crlfLines (lines : list Buffer) : Buffer :=
  flat_map (fun l => l ++ CRLF) lines.

Definition isEmpty {A : Type} (l : list A) : bool :=
  match l with
  | [] => true
  | _ :: _ => false
  end.

(** What happens on a connection: the transport emits an event, or the
    server calls [soRead]. *)
Inductive ConnAction : Type :=
| Emit (ev : Event)
| CallRead.

Definition act (w : World) (a : ConnAction) : World :=
  match a with
  | Emit ev => dispatch ev w
  | CallRead => snd (soRead w)
  end.

Definition runActions (actions : list ConnAction) (w : World) : World :=
  fold_left act actions w.

(** A connection with no error recorded and no end of stream seen. *)
Definition openConn (sock : Socket) (reader : option nat)
    (ps : list Settlement) : World :=
  mkWorld (TCPConn.mk sock None false reader) ps.

Definition hasError (w : World) : bool :=
  match TCPConn.err (conn w) with
  | Some _ => true
  | None => false
  end.

Definition isSettled (s : Settlement) : bool :=
  match s with
  | Pending => false
  | _ => true
  end.

Definition isRejected (s : Settlement) : bool :=
  match s with
  | Rejected _ => true
  | _ => false
  end.

(** What the handler of an event hands to the read it finds pending. *)
Definition outcomeOf (ev : Event) : Settlement :=
  match ev with
  | DataEvent data => Resolved data
  | ErrorEvent e => Rejected e
  | EndEvent => Resolved (JS.bytes "EOF")
  end.

(** * Proofs *)

(** ** Built-ins *)

Section Builtins.

Lemma blen_nonneg (b : Buffer) : 0 <= JS.blen b.
Proof. unfold JS.blen. lia. Qed.

Lemma blen_app (a b : Buffer) : JS.blen (a ++ b) = JS.blen a + JS.blen b.
Proof. unfold JS.blen. rewrite length_app. lia. Qed.

Lemma blen_alloc (n : Z) : JS.blen (JS.alloc n) = Z.max n 0.
Proof. unfold JS.blen, JS.alloc. rewrite repeat_length. lia. Qed.

Lemma relIndex_range (len i : Z) :
  0 <= len -> 0 <= JS.relIndex len i <= len.
Proof. unfold JS.relIndex. destruct (i <? 0) eqn:E; lia. Qed.

Lemma relIndex_inside (len i : Z) :
  0 <= i <= len -> JS.relIndex len i = i.
Proof. unfold JS.relIndex. destruct (i <? 0) eqn:E; lia. Qed.

Lemma JS_relIndex_0 (len : Z) : 0 <= len -> JS.relIndex len 0 = 0.
Proof. intros H. apply relIndex_inside. lia. Qed.

Lemma copyWithin_length (b : Buffer) (t s e : Z) :
  JS.blen (JS.copyWithin b t s e) = JS.blen b.
Proof.
  unfold JS.copyWithin.
  pose proof (blen_nonneg b) as Hb.
  pose proof (relIndex_range (JS.blen b) t Hb) as Ht.
  pose proof (relIndex_range (JS.blen b) s Hb) as Hs.
  pose proof (relIndex_range (JS.blen b) e Hb) as He.
  destruct (0 <? _) eqn:E; [|reflexivity].
  unfold JS.blen in *.
  rewrite !length_app, !length_firstn, !length_skipn. lia.
Qed.

Lemma copy_length (src tgt out : Buffer) (t s : Z) :
  JS.copy src tgt t s = Some out -> JS.blen out = JS.blen tgt.
Proof.
  unfold JS.copy.
  destruct (_ || _ || _) eqn:E1; [discriminate|].
  destruct ((JS.blen tgt <=? t) || (JS.blen src <=? s)) eqn:E2;
    intros H; injection H as H; subst out; [reflexivity|].
  rewrite !orb_false_iff in E1, E2.
  unfold JS.blen in *.
  rewrite !length_app, !length_firstn, !length_skipn. lia.
Qed.

(** Copying a whole source into a target that has room for it. *)
Lemma copy_fits (src tgt : Buffer) (t : Z) :
  0 <= t -> t + JS.blen src <= JS.blen tgt ->
  JS.copy src tgt t 0
  = Some (firstn (Z.to_nat t) tgt ++ src
            ++ skipn (Z.to_nat (t + JS.blen src)) tgt).
Proof.
  intros Ht Hfit. unfold JS.copy.
  pose proof (blen_nonneg src) as Hs.
  replace ((t <? 0) || (0 <? 0) || (JS.blen src <? 0)) with false
    by (symmetry; rewrite !orb_false_iff; repeat split; lia).
  destruct (_ || _) eqn:E.
  - f_equal.
    assert (JS.blen src = 0) as H0.
    { apply orb_true_iff in E. destruct E as [E|E]; apply Z.leb_le in E; lia. }
    assert (src = []) as -> by (destruct src; [reflexivity|discriminate]).
    cbn. rewrite Z.add_0_r. now rewrite firstn_skipn.
  - rewrite orb_false_iff, !Z.leb_gt in E.
    replace (Z.min (JS.blen src - 0) (JS.blen tgt - t)) with (JS.blen src) by lia.
    change (skipn (Z.to_nat 0) src) with src.
    rewrite (firstn_all2 (n := Z.to_nat (JS.blen src))) by (unfold JS.blen; lia).
    reflexivity.
Qed.

Lemma subarray_prefix (b : Buffer) (e : Z) :
  0 <= e <= JS.blen b -> JS.subarray b 0 e = firstn (Z.to_nat e) b.
Proof.
  intros He. unfold JS.subarray.
  rewrite (relIndex_inside _ 0) by lia.
  rewrite (relIndex_inside _ e) by lia.
  cbn. now rewrite Z.sub_0_r.
Qed.

(** A view from 0 always shows a prefix of the buffer. *)
Lemma subarray_from_0 (b : Buffer) (e : Z) :
  exists k : nat, JS.subarray b 0 e = firstn k b.
Proof.
  unfold JS.subarray. pose proof (blen_nonneg b).
  rewrite (relIndex_inside _ 0) by lia. cbn. eauto.
Qed.

End Builtins.

(** ** The accumulator *)

Section Accumulator.

Lemma growLoop_reaches (fuel : nat) (newLen : Z) :
  forall cap, 0 < cap -> newLen <= cap + Z.of_nat fuel ->
              newLen <= growLoop fuel cap newLen.
Proof.
  induction fuel as [|fuel IH]; intros cap Hc Hf; cbn.
  - lia.
  - destruct (cap <? newLen) eqn:E; [apply IH|]; lia.
Qed.

Lemma growLoop_doubles (fuel : nat) (newLen : Z) :
  forall cap, 0 < cap ->
              exists k : nat, growLoop fuel cap newLen = cap * 2 ^ Z.of_nat k.
Proof.
  induction fuel as [|fuel IH]; intros cap Hc; cbn.
  - exists 0%nat. cbn. lia.
  - destruct (cap <? newLen) eqn:E.
    + destruct (IH (cap * 2)) as [k Hk]; [lia|].
      exists (S k). rewrite Hk, Nat2Z.inj_succ, Z.pow_succ_r by lia. lia.
    + exists 0%nat. cbn. lia.
Qed.

Lemma live_wellFormed (buf : DynBuf) :
  wellFormed buf ->
  live buf = firstn (Z.to_nat (DynBuf.length buf)) (DynBuf.data buf).
Proof. intros H. unfold live. now apply subarray_prefix. Qed.

Lemma blen_live (buf : DynBuf) :
  wellFormed buf -> JS.blen (live buf) = DynBuf.length buf.
Proof.
  intros H. rewrite live_wellFormed by assumption.
  unfold wellFormed, capacity, JS.blen in *. rewrite length_firstn. lia.
Qed.

Lemma copy_throws (src tgt : Buffer) (t : Z) :
  JS.copy src tgt t 0 = None -> t < 0.
Proof.
  unfold JS.copy. pose proof (blen_nonneg src).
  destruct (t <? 0) eqn:Et; [lia|].
  replace (JS.blen src <? 0) with false by lia. cbn.
  destruct (_ || _); discriminate.
Qed.

Lemma copy_returns (src tgt : Buffer) (t : Z) :
  0 <= t -> exists out, JS.copy src tgt t 0 = Some out.
Proof.
  intros Ht. destruct (JS.copy src tgt t 0) eqn:E; [eauto|].
  apply copy_throws in E. lia.
Qed.

(** [reserve] always succeeds; the storage it leaves holds [newLen] bytes,
    starts with the old storage, and is the old one or [max cap 32]
    doubled some times. *)
Lemma reserve_grows (buf : DynBuf) (newLen : Z) :
  exists buf1 (pad : Buffer),
    reserve buf newLen = Some buf1
    /\ DynBuf.length buf1 = DynBuf.length buf
    /\ DynBuf.data buf1 = DynBuf.data buf ++ pad
    /\ newLen <= capacity buf1
    /\ (capacity buf1 = capacity buf
        \/ exists k : nat,
             capacity buf < capacity buf1
             /\ capacity buf1 = Z.max (capacity buf) 32 * 2 ^ Z.of_nat k).
Proof.
  unfold reserve, capacity.
  pose proof (blen_nonneg (DynBuf.data buf)) as Hcap.
  destruct (JS.blen (DynBuf.data buf) <? newLen) eqn:Egrow.
  - set (cap0 := Z.max (JS.blen (DynBuf.data buf)) 32).
    destruct (growLoop_doubles (Z.to_nat newLen) newLen cap0) as [k Hk]; [lia|].
    pose proof (growLoop_reaches (Z.to_nat newLen) newLen cap0) as Hreach.
    set (cap := growLoop (Z.to_nat newLen) cap0 newLen) in *.
    assert (newLen <= cap) as Hge by (apply Hreach; lia).
    rewrite copy_fits by (rewrite ?blen_alloc; lia).
    eexists _, _. split; [reflexivity|]. cbn.
    rewrite !blen_app.
    assert (JS.blen (skipn (Z.to_nat (JS.blen (DynBuf.data buf))) (JS.alloc cap))
            = cap - JS.blen (DynBuf.data buf)) as ->.
    { unfold JS.blen at 1. rewrite length_skipn. unfold JS.alloc.
      rewrite repeat_length. lia. }
    apply Z.ltb_lt in Egrow.
    repeat split; [lia|right; exists k; lia].
  - exists buf, []. rewrite app_nil_r. repeat split; [lia|now left].
Qed.

(** [bufPush] whatever the accumulator: the capacity never shrinks, it
    holds the length afterwards, and it grows by doubling from the floor. *)
Lemma bufPush_capacity (buf : DynBuf) (data : Buffer) :
  capacityStep (Push data) buf (snd (bufPush buf data)).
Proof.
  unfold capacityStep, bufPush.
  destruct (reserve_grows buf (DynBuf.length buf + JS.blen data))
    as (buf1 & pad & -> & Hlen & _ & Hfit & Hcap).
  pose proof (blen_nonneg data) as Hd.
  destruct (JS.copy data (DynBuf.data buf1) (DynBuf.length buf1) 0)
    as [d|] eqn:Ed; cbn [snd].
  - apply copy_length in Ed. unfold capacity in *. cbn. split; [lia|].
    rewrite Ed. exact Hcap.
  - apply copy_throws in Ed. split; [|exact Hcap].
    unfold capacity in *. pose proof (blen_nonneg (DynBuf.data buf1)). lia.
Qed.

Lemma bufPop_capacity (buf : DynBuf) (len : Z) :
  capacity (bufPop buf len) = capacity buf.
Proof. unfold bufPop, capacity. cbn. apply copyWithin_length. Qed.

(** [bufPush] on a well-formed accumulator returns and appends. *)
Lemma bufPush_appends (buf : DynBuf) (data : Buffer) :
  wellFormed buf ->
  exists buf',
    bufPush buf data = (Ok tt, buf')
    /\ wellFormed buf'
    /\ live buf' = live buf ++ data.
Proof.
  intros Hwf. rewrite (live_wellFormed buf Hwf).
  unfold bufPush.
  destruct (reserve_grows buf (DynBuf.length buf + JS.blen data))
    as (buf1 & pad & -> & Hlen & Hdata & Hfit & _).
  unfold wellFormed, capacity in *.
  pose proof (blen_nonneg data) as Hd.
  rewrite Hlen.
  rewrite copy_fits by lia.
  eexists. split; [reflexivity|].
  assert (JS.blen (firstn (Z.to_nat (DynBuf.length buf)) (DynBuf.data buf)) 
          = DynBuf.length buf) as Hpre.
  { unfold JS.blen in *. rewrite length_firstn. lia. }
  assert (firstn (Z.to_nat (DynBuf.length buf)) (DynBuf.data buf1)
          = firstn (Z.to_nat (DynBuf.length buf)) (DynBuf.data buf)) as Hsame.
  { rewrite Hdata, firstn_app.
    replace (Z.to_nat (DynBuf.length buf) - Datatypes.length (DynBuf.data buf))%nat
      with 0%nat by (unfold JS.blen in *; lia).
    cbn. now rewrite app_nil_r. }
  rewrite Hsame.
  set (pre := firstn (Z.to_nat (DynBuf.length buf)) (DynBuf.data buf)) in *.
  set (post := skipn _ (DynBuf.data buf1)).
  assert (JS.blen (pre ++ data ++ post) = JS.blen (DynBuf.data buf1)) as Htot.
  { subst post. rewrite !blen_app, Hpre. unfold JS.blen at 2.
    rewrite length_skipn. unfold JS.blen in *. lia. }
  split; [cbn; lia|].
  unfold live. cbn [DynBuf.data DynBuf.length].
  rewrite subarray_prefix by lia.
  rewrite app_assoc, firstn_app.
  assert (JS.blen (pre ++ data) = DynBuf.length buf + JS.blen data) as Hn
    by (rewrite blen_app; lia).
  rewrite firstn_all2 by (unfold JS.blen in *; lia).
  replace (Z.to_nat (DynBuf.length buf + JS.blen data)
           - Datatypes.length (pre ++ data))%nat
    with 0%nat by (unfold JS.blen in *; lia).
  cbn. now rewrite app_nil_r.
Qed.

(** [bufPop] of at most the bytes held drops them from the front. *)
Lemma bufPop_drops (buf : DynBuf) (len : Z) :
  wellFormed buf -> 0 <= len <= DynBuf.length buf ->
  wellFormed (bufPop buf len)
  /\ live (bufPop buf len) = skipn (Z.to_nat len) (live buf).
Proof.
  intros Hwf Hlen.
  assert (wellFormed (bufPop buf len)) as Hwf'.
  { unfold wellFormed in *. rewrite bufPop_capacity. cbn. lia. }
  split; [exact Hwf'|].
  rewrite (live_wellFormed _ Hwf'), (live_wellFormed _ Hwf).
  unfold wellFormed, capacity in Hwf.
  unfold bufPop. cbn [DynBuf.data DynBuf.length].
  unfold JS.copyWithin.
  rewrite (JS_relIndex_0 (JS.blen (DynBuf.data buf))) by lia.
  rewrite (relIndex_inside _ len), (relIndex_inside _ (DynBuf.length buf)) by lia.
  replace (Z.min (DynBuf.length buf - len) (JS.blen (DynBuf.data buf) - 0))
    with (DynBuf.length buf - len) by lia.
  rewrite skipn_firstn_comm.
  replace (Z.to_nat (DynBuf.length buf) - Z.to_nat len)%nat
    with (Z.to_nat (DynBuf.length buf - len)) by lia.
  destruct (0 <? DynBuf.length buf - len) eqn:E.
  - cbn [Z.to_nat firstn app].
    rewrite firstn_app.
    rewrite (firstn_all2 (n := Z.to_nat (DynBuf.length buf - len)))
      by (rewrite length_firstn; lia).
    rewrite length_firstn, length_skipn.
    replace (Z.to_nat (DynBuf.length buf - len)
             - Nat.min (Z.to_nat (DynBuf.length buf - len))
                 (Datatypes.length (DynBuf.data buf) - Z.to_nat len))%nat
      with 0%nat by (unfold JS.blen in *; lia).
    cbn. now rewrite app_nil_r.
  - replace (DynBuf.length buf - len) with 0 by lia. reflexivity.
Qed.

Lemma stepOp_capacity (op : Op) (buf : DynBuf) :
  capacityStep op buf (snd (stepOp op buf)).
Proof.
  destruct op as [data|len]; cbn [stepOp snd].
  - apply bufPush_capacity.
  - apply bufPop_capacity.
Qed.

Lemma capacityStep_monotone (op : Op) (before after : DynBuf) :
  capacityStep op before after -> capacity before <= capacity after.
Proof.
  destruct op; cbn; [intros [_ [->|(k & Hlt & _)]]|intros ->]; lia.
Qed.

End Accumulator.

(** C6. For every sequence of pushes interleaved with pop-fronts that never
    ask for more bytes than are held, run from a well-formed accumulator,
    every call returns and the live region is the content the specification
    describes: what was held, then the bytes pushed in order, minus the
    prefix popped. *)
Theorem accumulator_content_law (ops : list Op) :
  forall (buf : DynBuf) (content : Buffer),
    wellFormed buf ->
    contentLaw ops (live buf) = Some content ->
    exists buf', runOps ops buf = (Ok tt, buf')
                 /\ wellFormed buf'
                 /\ live buf' = content.
Proof.
  induction ops as [|[data|len] ops IH]; intros buf content Hwf Hlaw.
  - cbn in *. injection Hlaw as <-. eauto.
  - cbn [contentLaw] in Hlaw. cbn [runOps stepOp].
    destruct (bufPush_appends buf data Hwf) as (buf1 & -> & Hwf1 & Hlive).
    apply IH; [assumption|]. now rewrite Hlive.
  - cbn [contentLaw] in Hlaw. cbn [runOps stepOp].
    rewrite (blen_live buf Hwf) in Hlaw.
    destruct ((0 <=? len) && (len <=? DynBuf.length buf)) eqn:E; [|discriminate].
    apply andb_true_iff in E. destruct E as [E1 E2].
    apply Z.leb_le in E1, E2.
    destruct (bufPop_drops buf len Hwf (conj E1 E2)) as [Hwf1 Hlive].
    apply IH; [assumption|]. now rewrite Hlive.
Qed.

Lemma accumulator_content_law_witness :
  exists buf', runOps sampleOps emptyBuf = (Ok tt, buf')
               /\ wellFormed buf'
               /\ live buf' = JS.bytes "de".
Proof.
  apply (accumulator_content_law sampleOps emptyBuf (JS.bytes "de")).
  - unfold wellFormed. cbn. lia.
  - reflexivity.
Defined.

(** C7. Across every sequence of push and pop-front calls, from any
    accumulator: no call lowers the capacity; a pop-front leaves it as it
    is; after a push it is at least the length, and it is either unchanged
    or [max(capacity, 32)] doubled some number of times. *)
Theorem capacity_never_decreases (ops : list Op) :
  forall buf : DynBuf,
    Forall (fun '(op, before, after) =>
              capacity before <= capacity after
              /\ capacityStep op before after)
      (history ops buf).
Proof.
  induction ops as [|op ops IH]; intros buf; cbn [history].
  - constructor.
  - pose proof (stepOp_capacity op buf) as Hstep.
    destruct (stepOp op buf) as [o buf']. cbn [snd] in Hstep.
    constructor.
    + split; [eapply capacityStep_monotone; eassumption|assumption].
    + destruct o; [apply IH|constructor|constructor].
Qed.

(** ** Lines and header blocks *)

Section Lines.

Import HttpServer.

Lemma skipn_cons_nth {A : Type} (l : list A) :
  forall n : nat, (n < List.length l)%nat ->
    exists x, nth_error l n = Some x /\ skipn n l = x :: skipn (S n) l.
Proof.
  induction l as [|y l IH]; intros n Hn; cbn in Hn; [lia|].
  destruct n as [|n]; [exists y; now split|].
  destruct (IH n) as (x & Hx & Hs); [lia|].
  exists x. split; [exact Hx|exact Hs].
Qed.

Lemma firstn_snoc_nth {A : Type} (l : list A) :
  forall (n : nat) (x : A),
    nth_error l n = Some x -> firstn (S n) l = firstn n l ++ [x].
Proof.
  induction l as [|y l IH]; intros [|n] x Hx; cbn in Hx; try discriminate.
  - now injection Hx as ->.
  - cbn [firstn app]. f_equal. now apply IH.
Qed.

Lemma at_nat (b : Buffer) (n : nat) : JS.at_ b (Z.of_nat n) = nth_error b n.
Proof.
  unfold JS.at_. destruct (Z.ltb_spec (Z.of_nat n) 0) as [H|H]; [lia|].
  now rewrite Nat2Z.id.
Qed.

Lemma subarray_inside (b : Buffer) (s e : nat) :
  (s <= e <= List.length b)%nat ->
  JS.subarray b (Z.of_nat s) (Z.of_nat e) = firstn (e - s) (skipn s b).
Proof.
  intros H. unfold JS.subarray.
  rewrite !relIndex_inside by (unfold JS.blen; lia).
  rewrite Nat2Z.id. f_equal. lia.
Qed.

Lemma linesOf_short (bs cur : Buffer) :
  (List.length bs <= 1)%nat -> linesOf bs cur = [].
Proof. destruct bs as [|b [|b' bs]]; cbn; intros; try reflexivity; lia. Qed.

(** The index loop of [splitLines] computes [linesOf]; the fuel given by
    [splitLines] lets the loop run to its exit. *)
Lemma splitLinesLoop_linesOf (buf : Buffer) (fuel : nat) :
  forall (i start : nat) (lines : list Buffer),
    (start <= i <= List.length buf)%nat ->
    (List.length buf - i <= fuel)%nat ->
    splitLinesLoop fuel buf (Z.of_nat i) (Z.of_nat start) lines
    = lines ++ linesOf (skipn i buf) (rev (firstn (i - start) (skipn start buf))).
Proof.
  induction fuel as [|fuel IH]; intros i start lines Hi Hfuel.
  - cbn. rewrite linesOf_short by (rewrite length_skipn; lia).
    now rewrite app_nil_r.
  - cbn [splitLinesLoop].
    destruct (Z.of_nat i <? JS.blen buf - 1) eqn:Ei.
    + apply Z.ltb_lt in Ei. unfold JS.blen in Ei.
      destruct (skipn_cons_nth buf i) as (b1 & Hb1 & Hs1); [lia|].
      destruct (skipn_cons_nth buf (S i)) as (b2 & Hb2 & Hs2); [lia|].
      replace (Z.of_nat i + 1) with (Z.of_nat (S i)) by lia.
      rewrite !at_nat, Hb1, Hb2. cbn [byteIs].
      rewrite Hs1, Hs2. cbn [linesOf].
      destruct (Byte.eqb b1 x0d && Byte.eqb b2 x0a).
      * replace (Z.of_nat (S i) + 1) with (Z.of_nat (S (S i))) by lia.
        rewrite IH by lia.
        rewrite Nat.sub_diag. cbn [firstn rev].
        rewrite subarray_inside by lia.
        rewrite rev_involutive, <- app_assoc. reflexivity.
      * rewrite IH by lia. rewrite Hs2.
        replace (S i - start)%nat with (S (i - start)) by lia.
        rewrite (firstn_snoc_nth _ (i - start) b1).
        -- rewrite rev_app_distr. reflexivity.
        -- rewrite nth_error_skipn.
           now replace (start + (i - start))%nat with i by lia.
    + apply Z.ltb_ge in Ei. unfold JS.blen in Ei.
      rewrite linesOf_short by (rewrite length_skipn; lia).
      now rewrite app_nil_r.
Qed.

Lemma splitLines_linesOf (buf : Buffer) : splitLines buf = linesOf buf [].
Proof.
  unfold splitLines.
  exact (splitLinesLoop_linesOf buf (List.length buf) 0 0 []
           ltac:(lia) ltac:(lia)).
Qed.

(** A block that ends with CR LF CR LF always has a last, empty line. *)
Lemma linesOf_terminated (n : nat) :
  forall pre cur : Buffer,
    (List.length pre <= n)%nat ->
    exists l ls, linesOf (pre ++ splitter) cur = l :: ls ++ [[]].
Proof.
  induction n as [|n IH]; intros pre cur Hn.
  - destruct pre; [|cbn in Hn; lia].
    exists (rev cur), []. reflexivity.
  - destruct pre as [|b1 [|b2 pre]].
    + exists (rev cur), []. reflexivity.
    + exists (rev (b1 :: cur)), [].
      cbn. rewrite andb_false_r. reflexivity.
    + cbn in Hn. cbn [app linesOf].
      destruct (Byte.eqb b1 x0d && Byte.eqb b2 x0a).
      * destruct (IH pre []) as (l & ls & ->); [lia|].
        exists (rev cur), (l :: ls). reflexivity.
      * apply (IH (b2 :: pre)). cbn. lia.
Qed.

Lemma validateHeader_empty : validateHeader [] = false.
Proof. reflexivity. Qed.

Lemma headerLoop_empty_line (lines : list Buffer) :
  forall headers, In [] lines ->
    exists msg, headerLoop lines headers = Throw (HTTPError 400 msg).
Proof.
  induction lines as [|line lines IH]; intros headers Hin; [contradiction|].
  cbn [headerLoop].
  destruct (validateHeader line) eqn:Ev; cbn [negb]; [|eauto].
  apply IH. destruct Hin as [->|Hin]; [|exact Hin].
  rewrite validateHeader_empty in Ev. discriminate.
Qed.

(** [parseHTTPReq] throws on every block that ends with the terminator:
    the empty line before it is checked as a header. *)
Lemma parseHTTPReq_terminated (pre : Buffer) :
  exists msg, parseHTTPReq (pre ++ splitter) = Throw (HTTPError 400 msg).
Proof.
  unfold parseHTTPReq. rewrite splitLines_linesOf.
  destruct (linesOf_terminated (List.length pre) pre []) as (l & ls & ->);
    [lia|].
  cbn [skipn].
  destruct (headerLoop_empty_line (ls ++ [[]]) []) as [msg ->];
    [apply in_or_app; right; now left|].
  eauto.
Qed.

Lemma isPrefix_bytes (pat : Buffer) :
  forall l, JS.isPrefix Byte.eqb pat l = true -> exists post, l = pat ++ post.
Proof.
  induction pat as [|p pat IH]; intros l H; [cbn; eauto|].
  destruct l as [|x l]; cbn in H; [discriminate|].
  apply andb_true_iff in H. destruct H as [Hp Hl].
  apply Byte.byte_dec_bl in Hp. subst x.
  destruct (IH l Hl) as [post ->]. now exists post.
Qed.

(** A non-negative [indexOf] is the length of what precedes the pattern. *)
Lemma indexOfFrom_found (pat : Buffer) (b : Buffer) :
  forall i, 0 <= i -> 0 <= JS.indexOfFrom b pat i ->
    exists pre post,
      b = pre ++ pat ++ post
      /\ JS.indexOfFrom b pat i = i + JS.blen pre.
Proof.
  induction b as [|x b IH]; intros i Hi Hr; cbn [JS.indexOfFrom] in *.
  - destruct pat; [|lia]. exists [], []. split; [reflexivity|cbn; lia].
  - destruct (JS.isPrefix Byte.eqb pat (x :: b)) eqn:Ep.
    + destruct (isPrefix_bytes _ _ Ep) as [post ->].
      exists [], post. split; [reflexivity|cbn; lia].
    + destruct (IH (i + 1)) as (pre & post & -> & Hidx); [lia|assumption|].
      exists (x :: pre), post. split; [reflexivity|].
      rewrite Hidx. unfold JS.blen. cbn [List.length]. lia.
Qed.

Lemma indexOf_found (b pat : Buffer) :
  0 <= JS.indexOf b pat ->
  exists pre post,
    b = pre ++ pat ++ post /\ JS.indexOf b pat = JS.blen pre.
Proof.
  intros H. unfold JS.indexOf in *.
  destruct (indexOfFrom_found pat b 0) as (pre & post & Hb & Hidx);
    [lia|assumption|].
  exists pre, post. split; [assumption|lia].
Qed.

(** The block [cutMessage] hands to [parseHTTPReq] ends with the
    terminator. *)
Lemma header_block (data : Buffer) (len : Z) :
  let idx := JS.indexOf (JS.subarray data 0 len) splitter in
  0 <= idx ->
  exists pre, JS.subarray data 0 (idx + 4) = pre ++ splitter.
Proof.
  intros idx Hidx. subst idx.
  destruct (indexOf_found _ _ Hidx) as (pre & post & Hview & ->).
  exists pre.
  destruct (subarray_from_0 data len) as [k Hk]. rewrite Hk in Hview.
  assert (JS.blen pre + 4 <= JS.blen data) as Hfit.
  { pose proof (f_equal (@List.length byte) Hview) as Hl.
    rewrite length_firstn, !length_app in Hl. cbn in Hl.
    unfold JS.blen. lia. }
  pose proof (blen_nonneg pre).
  rewrite subarray_prefix by lia.
  pose proof (f_equal (firstn (Z.to_nat (JS.blen pre + 4))) Hview) as Hf.
  rewrite firstn_firstn in Hf.
  assert (Z.to_nat (JS.blen pre + 4) <= k)%nat as Hk'.
  { pose proof (f_equal (@List.length byte) Hview) as Hl.
    rewrite length_firstn, !length_app in Hl. cbn in Hl.
    unfold JS.blen. lia. }
  rewrite Nat.min_l in Hf by assumption.
  rewrite Hf.
  rewrite app_assoc, firstn_app.
  rewrite firstn_all2 by (rewrite length_app; unfold JS.blen; cbn; lia).
  replace (Z.to_nat (JS.blen pre + 4) - List.length (pre ++ splitter))%nat
    with 0%nat by (rewrite length_app; unfold JS.blen; cbn; lia).
  cbn. now rewrite app_nil_r.
Qed.

(** [cutMessage] never returns a request: it reports an incomplete
    header, or throws and leaves the accumulator as it was. *)
Lemma cutMessage_outcomes (buf : DynBuf) :
  cutMessage buf = (Ok None, buf)
  \/ exists code msg, cutMessage buf = (Throw (HTTPError code msg), buf).
Proof.
  unfold cutMessage.
  destruct (JS.indexOf _ splitter <? 0) eqn:Eidx.
  - destruct (kMaxHeaderLen <? DynBuf.length buf); [right|left]; eauto.
  - apply Z.ltb_ge in Eidx. right.
    destruct (header_block _ _ Eidx) as [pre ->].
    destruct (parseHTTPReq_terminated pre) as [msg ->].
    eauto.
Qed.

End Lines.

(** ** The HTTP framer *)

(** C1. On the accumulator holding exactly
    ["GET / HTTP/1.1\r\nHost: x\r\n\r\n"], [cutMessage] returns no request:
    [splitLines] yields the request line, the header [Host: x] and the empty
    line before the terminator, the header loop rejects the empty line, and
    the call throws [HTTPError 400] with the accumulator untouched. *)
Theorem sample_request_is_rejected :
  live sampleAccumulator = sampleRequest
  /\ HttpServer.splitLines sampleRequest
     = [JS.bytes "GET / HTTP/1.1"; JS.bytes "Host: x"; []]
  /\ HttpServer.cutMessage sampleAccumulator
     = (Throw (HTTPError 400 (JS.str "Invalid header, line: ")),
        sampleAccumulator).
Proof. vm_compute. repeat split. Qed.

(** The request line, had the header loop passed: [split(" ")] keeps the
    protocol name in the version. *)
Lemma sample_request_line :
  JS.split (JS.toString (JS.bytes "GET / HTTP/1.1")) (JS.str " ")
  = [JS.str "GET"; JS.str "/"; JS.str "HTTP/1.1"].
Proof. reflexivity. Qed.

Lemma skipn_past_prefix {A : Type} (pre l : list A) (n : nat) :
  n = List.length pre -> skipn n (pre ++ l) = l.
Proof.
  intros ->. rewrite skipn_app, Nat.sub_diag, skipn_all. reflexivity.
Qed.

(** ** The connection wrapper *)

Section Connection.

Lemma promiseState_new (ps : list Settlement) (c : TCPConn) :
  promiseState (List.length ps) (mkWorld c (ps ++ [Pending])) = Pending.
Proof.
  unfold promiseState. cbn.
  rewrite app_nth2, Nat.sub_diag by lia. reflexivity.
Qed.

Lemma setNth_last {A : Type} (l : list A) (x y : A) :
  setNth (List.length l) x (l ++ [y]) = l ++ [x].
Proof. induction l as [|z l IH]; cbn; [reflexivity|now rewrite IH]. Qed.

Lemma setNth_middle {A : Type} (l1 l2 : list A) (x y : A) :
  setNth (List.length l1) x (l1 ++ y :: l2) = l1 ++ x :: l2.
Proof. induction l1 as [|z l1 IH]; cbn; [reflexivity|now rewrite IH]. Qed.

(** The end handler on any connection with a read pending: the promise is
    resolved with the three bytes of ["EOF"]. *)
Lemma onEnd_settles_reader (sock : Socket) (e : option Exn) (was : bool)
    (ps1 ps2 : list Settlement) :
  onEnd (mkWorld (TCPConn.mk sock e was (Some (List.length ps1)))
           (ps1 ++ Pending :: ps2))
  = mkWorld (TCPConn.mk sock e true None)
      (ps1 ++ Resolved (JS.bytes "EOF") :: ps2).
Proof.
  unfold onEnd, settleReader, settle, withConn, promiseState. cbn.
  rewrite app_nth2, Nat.sub_diag by lia. cbn.
  now rewrite setNth_middle.
Qed.


End Connection.

(** C2. A read is pending on a fresh connection when the transport reports
    the end of the stream: the promise is resolved with the 3-byte chunk
    ["EOF"], not an empty one; the next [soRead] resolves to ["EOF"] too,
    stores its callbacks in [conn.reader] and calls [socket.resume()]. *)
Theorem end_of_stream_reads_EOF_bytes :
  promiseState 0 endedWhileReading = Resolved (JS.bytes "EOF")
  /\ JS.blen (JS.bytes "EOF") = 3
  /\ TCPConn.socket (conn endedWhileReading) = [ResumeCall]
  /\ soRead endedWhileReading
     = (1%nat,
        mkWorld (TCPConn.mk [ResumeCall; ResumeCall] None true (Some 1%nat))
          [Resolved (JS.bytes "EOF"); Resolved (JS.bytes "EOF")]).
Proof. repeat split. Qed.

(** ** Body readers *)

Section Readers.

Import HttpServer.

Lemma strEq_refl (s : JSString) : JS.strEq s s = true.
Proof.
  induction s as [|c s IH]; cbn; [reflexivity|].
  now rewrite N.eqb_refl, IH.
Qed.

Lemma read_exhausted (len : Z) (s : Session) :
  read (BodyReader.mk len (FromConnLength 0)) s
  = (Ok [], BodyReader.mk len (FromConnLength 0), s).
Proof. reflexivity. Qed.

Lemma nthRead_exhausted (n : nat) (len : Z) (s : Session) :
  nthRead n (BodyReader.mk len (FromConnLength 0)) s = Ok [].
Proof.
  induction n as [|n IH]; cbn [nthRead]; rewrite read_exhausted;
    [reflexivity|exact IH].
Qed.

(** ": " splits off a segment that has no colon. *)
Lemma splitGo_segment (k : JSString) :
  forall (cur s : JSString),
    noColon k = true ->
    JS.splitGo (JS.str ": ") (k ++ JS.str ": " ++ s) cur 0
    = (rev cur ++ k) :: JS.splitGo (JS.str ": ") s [] 0.
Proof.
  induction k as [|c k IH]; intros cur s Hk.
  - cbn. now rewrite app_nil_r.
  - cbn in Hk. apply andb_true_iff in Hk. destruct Hk as [Hc Hk].
    apply negb_true_iff in Hc.
    cbn [app JS.splitGo].
    change (JS.isPrefix N.eqb (JS.str ": ") (c :: k ++ JS.str ": " ++ s))
      with ((58 =? c)%N && JS.isPrefix N.eqb [32%N] (k ++ JS.str ": " ++ s)).
    rewrite N.eqb_sym, Hc. cbn [andb].
    rewrite IH by assumption.
    cbn [rev]. now rewrite <- app_assoc.
Qed.

(** ": " splits off a segment that holds no ": ", wherever its colons
    are. *)
Lemma splitGo_first_separator (k : JSString) :
  forall (cur s : JSString),
    noSeparator k = true ->
    JS.splitGo (JS.str ": ") (k ++ JS.str ": " ++ s) cur 0
    = (rev cur ++ k) :: JS.splitGo (JS.str ": ") s [] 0.
Proof.
  induction k as [|c k IH]; intros cur s Hk.
  - cbn. now rewrite app_nil_r.
  - cbn [noSeparator] in Hk. apply andb_true_iff in Hk. destruct Hk as [Hc Hk].
    apply negb_true_iff in Hc.
    change (JS.isPrefix N.eqb (JS.str ": ") (c :: k))
      with ((58 =? c)%N && JS.isPrefix N.eqb [32%N] k) in Hc.
    cbn [app JS.splitGo].
    change (JS.isPrefix N.eqb (JS.str ": ") (c :: k ++ JS.str ": " ++ s))
      with ((58 =? c)%N && JS.isPrefix N.eqb [32%N] (k ++ JS.str ": " ++ s)).
    assert (Hnot : ((58 =? c)%N
                    && JS.isPrefix N.eqb [32%N] (k ++ JS.str ": " ++ s)) = false).
    { destruct (58 =? c)%N; [|reflexivity].
      destruct k as [|d k]; [reflexivity|exact Hc]. }
    rewrite Hnot, IH by assumption.
    cbn [rev]. now rewrite <- app_assoc.
Qed.

(** The lookup passes over the lines that do not hold the field. *)
Lemma fieldGet_past (before headers : list Buffer) (field : JSString) :
  fieldGet before field = None ->
  fieldGet (before ++ headers) field = fieldGet headers field.
Proof.
  induction before as [|h before IH]; [reflexivity|].
  cbn [app fieldGet].
  destruct (match nth_error _ 0 with Some k => JS.strEq k field | None => false end);
    [discriminate|exact IH].
Qed.

End Readers.

(** C4, as amended. For every request whose method is GET and whose
    Content-Length value [parseInt] reads as NaN or as a number above 0,
    [readerFromReq] throws an [HTTPError] with code 400. *)
Theorem get_with_body_length_rejected
    (req : HttpServer.HTTPReq) (value : Buffer) :
  HttpServer.HTTPReq.method req = JS.str "GET" ->
  HttpServer.fieldGet (HttpServer.HTTPReq.headers req) (JS.str "Content-Length")
  = Some value ->
  JS.parseInt (JS.toStringLatin1 value) = None
  \/ (exists n, JS.parseInt (JS.toStringLatin1 value) = Some n /\ 0 < n) ->
  exists msg, HttpServer.readerFromReq req = Throw (HTTPError 400 msg).
Proof.
  intros Hm Hf Hv. unfold HttpServer.readerFromReq. rewrite Hf, Hm.
  destruct Hv as [->|(n & -> & Hn)]; [eauto|].
  cbn [JS.strEq JS.str map list_byte_of_string negb orb andb].
  change (JS.strEq (JS.str "GET") (JS.str "GET")) with true.
  cbn [negb orb andb].
  destruct (Z.ltb_spec 0 n); [|lia].
  cbn [orb]. eauto.
Qed.

Lemma get_with_body_length_rejected_witness :
  exists msg,
    HttpServer.readerFromReq (getRequest [JS.bytes "Content-Length: 5"])
    = Throw (HTTPError 400 msg).
Proof.
  apply (get_with_body_length_rejected
           (getRequest [JS.bytes "Content-Length: 5"]) (JS.bytes "5")).
  - reflexivity.
  - reflexivity.
  - right. exists 5. split; [reflexivity|lia].
Defined.

(** C4, as stated, fails for the value ["0"]: a GET request with
    [Content-Length: 0] gets a length-bounded reader of length 0. *)
Lemma get_with_zero_length_accepted :
  HttpServer.readerFromReq (getRequest [JS.bytes "Content-Length: 0"])
  = Ok (HttpServer.readerFromConnLength 0).
Proof. reflexivity. Qed.

(** C5. A length-bounded reader of declared length 5, on a connection that
    delivers ["ab"] and then ["cde"] (and anything later), over an empty
    accumulator: the reads give ["ab"], ["cde"], and then an empty chunk
    every time. *)
Theorem length_bounded_reader_sample (later : list Event) :
  HttpServer.nthRead 0 (HttpServer.readerFromConnLength 5) (sampleSession later)
  = Ok (JS.bytes "ab")
  /\ HttpServer.nthRead 1 (HttpServer.readerFromConnLength 5) (sampleSession later)
     = Ok (JS.bytes "cde")
  /\ forall n : nat,
       HttpServer.nthRead (2 + n) (HttpServer.readerFromConnLength 5)
         (sampleSession later)
       = Ok [].
Proof.
  split; [vm_compute; reflexivity|]. split; [vm_compute; reflexivity|].
  intros n. cbn [Nat.add HttpServer.nthRead].
  destruct (HttpServer.read _ (sampleSession later)) as [[o1 r1] s1] eqn:E1.
  vm_compute in E1. injection E1 as _ <- <-.
  destruct (HttpServer.read _ _) as [[o2 r2] s2] eqn:E2.
  vm_compute in E2. injection E2 as _ <- <-.
  apply nthRead_exhausted.
Qed.

(** C9, as amended. For every request with method GET or HEAD for which
    the header lookup finds no Content-Length: when its Transfer-Encoding is
    not ["chunked"], [readerFromReq] returns a length-bounded reader of
    declared length 0; when it is, [readerFromReq] throws an [HTTPError] with
    code 400. *)
Theorem bodyless_method_without_length (req : HttpServer.HTTPReq) :
  HttpServer.HTTPReq.method req = JS.str "GET"
  \/ HttpServer.HTTPReq.method req = JS.str "HEAD" ->
  HttpServer.fieldGet (HttpServer.HTTPReq.headers req) (JS.str "Content-Length")
  = None ->
  HttpServer.readerFromReq req
  = if HttpServer.isChunked (HttpServer.HTTPReq.headers req)
    then Throw (HTTPError 400 (JS.str "HTTP body not allowed."))
    else Ok (HttpServer.readerFromConnLength 0).
Proof.
  intros Hm Hf. unfold HttpServer.readerFromReq. rewrite Hf.
  destruct Hm as [-> | ->];
    destruct (HttpServer.isChunked (HttpServer.HTTPReq.headers req));
    reflexivity.
Qed.

Lemma bodyless_method_without_length_witness :
  HttpServer.readerFromReq (getRequest [JS.bytes "Host: x"])
  = Ok (HttpServer.readerFromConnLength 0).
Proof.
  apply (bodyless_method_without_length (getRequest [JS.bytes "Host: x"])).
  - left. reflexivity.
  - reflexivity.
Defined.

(** C9, as stated, fails for a GET request without Content-Length that
    declares [Transfer-Encoding: chunked]: it is refused with code 400. *)
Lemma get_chunked_without_length_rejected :
  HttpServer.fieldGet [JS.bytes "Transfer-Encoding: chunked"]
    (JS.str "Content-Length") = None
  /\ HttpServer.readerFromReq (getRequest [JS.bytes "Transfer-Encoding: chunked"])
     = Throw (HTTPError 400 (JS.str "HTTP body not allowed.")).
Proof. split; reflexivity. Qed.

(** C10. [fieldGet] splits a header line on every [": "] and answers with
    the second segment alone. For a line whose text is [key: value: rest],
    where neither [key] nor [value] holds a [": "] (either may hold colons),
    standing anywhere in the header list after lines that do not answer for
    [key], the lookup of [key] returns [value]: the second [": "] and all of
    [rest] are dropped. *)
Theorem fieldGet_returns_second_segment
    (before after : list Buffer) (header : Buffer) (key value rest : JSString) :
  HttpServer.fieldGet before key = None ->
  JS.toString header = key ++ JS.str ": " ++ value ++ JS.str ": " ++ rest ->
  noSeparator key = true ->
  noSeparator value = true ->
  HttpServer.fieldGet (before ++ header :: after) key
  = Some (JS.fromString value).
Proof.
  intros Hbefore Htext Hk Hv.
  rewrite (fieldGet_past before (header :: after) key Hbefore).
  cbn [HttpServer.fieldGet]. rewrite Htext.
  change (JS.split ?s (JS.str ": ")) with (JS.splitGo (JS.str ": ") s [] 0).
  rewrite (splitGo_first_separator key [] _ Hk),
    (splitGo_first_separator value [] _ Hv).
  cbn [rev app nth_error]. now rewrite strEq_refl.
Qed.

Lemma fieldGet_returns_second_segment_witness :
  HttpServer.fieldGet
    [JS.bytes "Accept: */*"; JS.bytes "Host: example.com:8080: x";
     JS.bytes "Host: other"]
    (JS.str "Host")
  = Some (JS.bytes "example.com:8080").
Proof.
  apply (fieldGet_returns_second_segment
           [JS.bytes "Accept: */*"] [JS.bytes "Host: other"]
           (JS.bytes "Host: example.com:8080: x")
           (JS.str "Host") (JS.str "example.com:8080") (JS.str "x")).
  - reflexivity.
  - reflexivity.
  - reflexivity.
  - reflexivity.
Defined.

(** ** The line framer *)

(** C8, as amended. When the live region holds no newline, the line framer
    reports an incomplete message and leaves the accumulator as it is,
    however many bytes are held. *)
Theorem line_framer_incomplete (buf : DynBuf) :
  JS.indexOf (live buf) [x0a] < 0 ->
  LineServer.cutMessage buf = (Ok None, buf).
Proof.
  intros H. unfold LineServer.cutMessage. fold (live buf).
  destruct (Z.ltb_spec (JS.indexOf (live buf) [x0a]) 0); [reflexivity|lia].
Qed.

Lemma line_framer_incomplete_witness :
  DynBuf.length longLine = 9000
  /\ LineServer.cutMessage longLine = (Ok None, longLine).
Proof.
  split; [reflexivity|].
  apply (line_framer_incomplete longLine).
  vm_compute. reflexivity.
Defined.

(** C8, as stated, fails: no accumulator makes the line framer throw. *)
Lemma line_framer_never_throws :
  ~ exists (buf : DynBuf) (e : Exn), fst (LineServer.cutMessage buf) = Throw e.
Proof.
  intros (buf & e & H). unfold LineServer.cutMessage in H.
  destruct (_ <? 0) in H; discriminate.
Qed.

(** * Further properties of the code *)

(** ** [splitLines], [parseHTTPReq], [validateHeader], [fieldGet] *)

Section HeaderBlocks.

Import HttpServer.

Lemma noByte_cons (c x : byte) (b : Buffer) :
  noByte c (x :: b) = true -> Byte.eqb x c = false /\ noByte c b = true.
Proof.
  unfold noByte. cbn. intros H. apply andb_true_iff in H.
  destruct H as [H1 H2]. apply negb_true_iff in H1. now split.
Qed.

Lemma linesOf_no_CR (tail : Buffer) :
  forall cur, noByte CR tail = true -> linesOf tail cur = [].
Proof.
  induction tail as [|b tail IH]; intros cur H; [reflexivity|].
  apply noByte_cons in H. destruct H as [Hb Ht].
  cbn [linesOf]. destruct tail as [|b2 rest]; [reflexivity|].
  unfold CR in Hb. rewrite Hb. cbn [andb]. now apply IH.
Qed.

Lemma linesOf_line (l : Buffer) :
  forall cur rest,
    noByte CR l = true ->
    linesOf (l ++ CRLF ++ rest) cur = (rev cur ++ l) :: linesOf rest [].
Proof.
  induction l as [|b l IH]; intros cur rest H.
  - cbn. now rewrite app_nil_r.
  - apply noByte_cons in H. destruct H as [Hb Hl]. unfold CR in Hb.
    specialize (IH (b :: cur) rest Hl).
    cbn [rev] in IH. rewrite <- app_assoc in IH. cbn [app] in IH.
    rewrite <- IH.
    destruct l as [|b2 l]; cbn [app linesOf]; rewrite Hb; reflexivity.
Qed.

Lemma linesOf_crlfLines (lines : list Buffer) (tail : Buffer) :
  forallb (noByte CR) lines = true ->
  noByte CR tail = true ->
  linesOf (crlfLines lines ++ tail) [] = lines.
Proof.
  intros Hl Ht. induction lines as [|l lines IH].
  - cbn. now apply linesOf_no_CR.
  - cbn in Hl. apply andb_true_iff in Hl. destruct Hl as [H1 H2].
    cbn [crlfLines flat_map]. rewrite <- !app_assoc.
    rewrite linesOf_line by assumption.
    cbn [rev app]. f_equal. now apply IH.
Qed.

Lemma headerLoop_valid (lines : list Buffer) :
  forall headers,
    forallb validateHeader lines = true ->
    headerLoop lines headers = Ok (headers ++ lines).
Proof.
  induction lines as [|l lines IH]; intros headers H; cbn [headerLoop].
  - now rewrite app_nil_r.
  - cbn in H. apply andb_true_iff in H. destruct H as [H1 H2].
    rewrite H1. cbn [negb]. rewrite IH by assumption.
    now rewrite <- app_assoc.
Qed.

Lemma splitGo_no_colon (s : JSString) :
  forall cur, noColon s = true ->
              JS.splitGo (JS.str ": ") s cur 0 = [rev cur ++ s].
Proof.
  induction s as [|c s IH]; intros cur H.
  - cbn. now rewrite app_nil_r.
  - cbn in H. apply andb_true_iff in H. destruct H as [Hc Hs].
    apply negb_true_iff in Hc.
    cbn [JS.splitGo].
    change (JS.isPrefix N.eqb (JS.str ": ") (c :: s))
      with ((58 =? c)%N && JS.isPrefix N.eqb [32%N] s).
    rewrite N.eqb_sym, Hc. cbn [andb].
    rewrite IH by assumption. cbn [rev]. now rewrite <- app_assoc.
Qed.

End HeaderBlocks.

(** X1. [splitLines] gives back lines that were each closed by CR LF, in
    order, when no line holds a CR; bytes after the last CR LF (an
    unterminated last line) are dropped. *)
Theorem splitLines_of_crlfLines (lines : list Buffer) (tail : Buffer) :
  forallb (noByte HttpServer.CR) lines = true ->
  noByte HttpServer.CR tail = true ->
  HttpServer.splitLines (crlfLines lines ++ tail) = lines.
Proof.
  intros Hl Ht. rewrite splitLines_linesOf. now apply linesOf_crlfLines.
Qed.

Lemma splitLines_of_crlfLines_witness :
  HttpServer.splitLines
    (crlfLines [JS.bytes "GET / HTTP/1.1"; JS.bytes "Host: x"] ++ JS.bytes "rest")
  = [JS.bytes "GET / HTTP/1.1"; JS.bytes "Host: x"].
Proof.
  apply (splitLines_of_crlfLines
           [JS.bytes "GET / HTTP/1.1"; JS.bytes "Host: x"] (JS.bytes "rest")).
  - reflexivity.
  - reflexivity.
Defined.

(** X2. [parseHTTPReq] on a block of CR LF lines with no empty line: when
    the request line splits on spaces into at least three tokens, the first
    three non-empty, and every other line passes [validateHeader], the
    result is the request made of the first three tokens (further tokens
    are ignored, the version keeps its text as written) and of the header
    lines in order. *)
Theorem parseHTTPReq_accepts
    (line0 : Buffer) (headers : list Buffer) (tail : Buffer)
    (m u v : JSString) (more : list JSString) :
  forallb (noByte HttpServer.CR) (line0 :: headers) = true ->
  noByte HttpServer.CR tail = true ->
  JS.split (JS.toString line0) (JS.str " ") = m :: u :: v :: more ->
  isEmpty m = false -> isEmpty u = false -> isEmpty v = false ->
  forallb HttpServer.validateHeader headers = true ->
  HttpServer.parseHTTPReq (crlfLines (line0 :: headers) ++ tail)
  = Ok (HttpServer.HTTPReq.mk m (JS.fromString u) v headers).
Proof.
  intros Hcr Htail Hsplit Hm Hu Hv Hvalid.
  unfold HttpServer.parseHTTPReq.
  rewrite splitLines_linesOf, linesOf_crlfLines by assumption.
  cbn [nth_error skipn]. rewrite Hsplit. cbn [nth_error].
  rewrite headerLoop_valid by assumption. cbn [app].
  destruct m; [discriminate|]. destruct u; [discriminate|].
  destruct v; [discriminate|]. reflexivity.
Qed.

Lemma parseHTTPReq_accepts_witness :
  HttpServer.parseHTTPReq
    (crlfLines [JS.bytes "GET / HTTP/1.1 more"; JS.bytes "Host: x"] ++ [])
  = Ok (HttpServer.HTTPReq.mk (JS.str "GET") (JS.bytes "/") (JS.str "HTTP/1.1")
          [JS.bytes "Host: x"]).
Proof.
  apply (parseHTTPReq_accepts (JS.bytes "GET / HTTP/1.1 more")
           [JS.bytes "Host: x"] [] (JS.str "GET") (JS.str "/")
           (JS.str "HTTP/1.1") [JS.str "more"]);
    reflexivity.
Defined.

(** X3. [parseHTTPReq] on a buffer with no CR at all (the empty buffer
    included) finds no line and throws 400, naming the three parts of the
    request line as undefined. *)
Theorem parseHTTPReq_without_lines (buf : Buffer) :
  noByte HttpServer.CR buf = true ->
  HttpServer.parseHTTPReq buf
  = Throw (HTTPError 400
             (JS.str "Invalid request, method: undefined, uri: undefined, version: undefined")).
Proof.
  intros H. unfold HttpServer.parseHTTPReq.
  rewrite splitLines_linesOf, linesOf_no_CR by assumption.
  reflexivity.
Qed.

Lemma parseHTTPReq_without_lines_witness :
  HttpServer.parseHTTPReq (JS.bytes "GET / HTTP/1.1")
  = Throw (HTTPError 400
             (JS.str "Invalid request, method: undefined, uri: undefined, version: undefined")).
Proof.
  apply (parseHTTPReq_without_lines (JS.bytes "GET / HTTP/1.1")).
  reflexivity.
Defined.

(** X4. [validateHeader] on a line whose text is [key: value], with no
    colon in [key] nor in [value]: the line is valid exactly when both are
    non-empty. *)
Theorem validateHeader_key_value (header : Buffer) (key value : JSString) :
  JS.toString header = key ++ JS.str ": " ++ value ->
  noColon key = true ->
  noColon value = true ->
  HttpServer.validateHeader header = negb (isEmpty key) && negb (isEmpty value).
Proof.
  intros Htext Hk Hv. unfold HttpServer.validateHeader. rewrite Htext.
  change (JS.split ?s (JS.str ": ")) with (JS.splitGo (JS.str ": ") s [] 0).
  rewrite (splitGo_segment key [] _ Hk), (splitGo_no_colon value [] Hv).
  cbn [rev app nth_error]. destruct key, value; reflexivity.
Qed.

Lemma validateHeader_key_value_witness :
  HttpServer.validateHeader (JS.bytes "Host: ") = negb false && negb true.
Proof.
  apply (validateHeader_key_value (JS.bytes "Host: ") (JS.str "Host") []);
    reflexivity.
Defined.

(** X5. [validateHeader] rejects every line whose text has no colon. *)
Theorem validateHeader_without_colon (header : Buffer) :
  noColon (JS.toString header) = true ->
  HttpServer.validateHeader header = false.
Proof.
  intros H. unfold HttpServer.validateHeader.
  change (JS.split ?s (JS.str ": ")) with (JS.splitGo (JS.str ": ") s [] 0).
  rewrite (splitGo_no_colon _ [] H). cbn [rev app nth_error].
  unfold HttpServer.truthy at 2. now rewrite andb_false_r.
Qed.

Lemma validateHeader_without_colon_witness :
  HttpServer.validateHeader (JS.bytes "Host x") = false.
Proof.
  apply (validateHeader_without_colon (JS.bytes "Host x")). reflexivity.
Defined.

(** X6. [fieldGet] over two header lists put end to end: the first list
    answers when it holds the field, otherwise the second does (the first
    line that matches wins). *)
Theorem fieldGet_app (headers1 headers2 : list Buffer) (field : JSString) :
  HttpServer.fieldGet (headers1 ++ headers2) field
  = match HttpServer.fieldGet headers1 field with
    | Some v => Some v
    | None => HttpServer.fieldGet headers2 field
    end.
Proof.
  induction headers1 as [|h headers1 IH]; [reflexivity|].
  cbn [app HttpServer.fieldGet].
  destruct (match nth_error _ 0 with Some k => JS.strEq k field | None => false end);
    [reflexivity|exact IH].
Qed.

(** ** [readerFromReq] *)

(** X8. For a method other than GET and HEAD, a Content-Length that reads
    as [n] with [0 <= n <= 2^53] (the integers that [parseInt] returns as
    they are written) gives a length-bounded reader of declared length [n],
    also when the request declares [Transfer-Encoding: chunked]. *)
Theorem body_method_with_length
    (req : HttpServer.HTTPReq) (value : Buffer) (n : Z) :
  JS.strEq (HttpServer.HTTPReq.method req) (JS.str "GET") = false ->
  JS.strEq (HttpServer.HTTPReq.method req) (JS.str "HEAD") = false ->
  HttpServer.fieldGet (HttpServer.HTTPReq.headers req) (JS.str "Content-Length")
  = Some value ->
  JS.parseInt (JS.toStringLatin1 value) = Some n ->
  0 <= n <= 2 ^ 53 ->
  HttpServer.readerFromReq req = Ok (HttpServer.readerFromConnLength n).
Proof.
  intros Hg Hh Hf Hp [Hn _]. unfold HttpServer.readerFromReq.
  rewrite Hf, Hp, Hg, Hh. cbn [orb negb andb].
  destruct (Z.leb_spec 0 n); [reflexivity|lia].
Qed.

Lemma body_method_with_length_witness :
  HttpServer.readerFromReq
    (HttpServer.HTTPReq.mk (JS.str "POST") (JS.bytes "/echo") (JS.str "HTTP/1.1")
       [JS.bytes "Transfer-Encoding: chunked"; JS.bytes "Content-Length: 5"])
  = Ok (HttpServer.readerFromConnLength 5).
Proof.
  apply (body_method_with_length _ (JS.bytes "5") 5);
    [reflexivity|reflexivity|reflexivity|reflexivity|lia].
Defined.

(** X9. For a method other than GET and HEAD, a request without
    Content-Length is refused with 501, chunked or not. *)
Theorem body_method_without_length (req : HttpServer.HTTPReq) :
  JS.strEq (HttpServer.HTTPReq.method req) (JS.str "GET") = false ->
  JS.strEq (HttpServer.HTTPReq.method req) (JS.str "HEAD") = false ->
  HttpServer.fieldGet (HttpServer.HTTPReq.headers req) (JS.str "Content-Length")
  = None ->
  exists msg, HttpServer.readerFromReq req = Throw (HTTPError 501 msg).
Proof.
  intros Hg Hh Hf. unfold HttpServer.readerFromReq.
  rewrite Hf, Hg, Hh. cbn [orb negb andb Z.leb Z.compare].
  destruct (HttpServer.isChunked _); eauto.
Qed.

Lemma body_method_without_length_witness :
  exists msg,
    HttpServer.readerFromReq
      (HttpServer.HTTPReq.mk (JS.str "POST") (JS.bytes "/echo")
         (JS.str "HTTP/1.1") [JS.bytes "Host: x"])
    = Throw (HTTPError 501 msg).
Proof.
  apply (body_method_without_length
           (HttpServer.HTTPReq.mk (JS.str "POST") (JS.bytes "/echo")
              (JS.str "HTTP/1.1") [JS.bytes "Host: x"]));
    reflexivity.
Defined.

(** X10. For GET and HEAD, [readerFromReq] has two outcomes only, whatever
    the headers: a reader of declared length 0, or an error with code 400;
    it never answers 501. *)
Theorem bodyless_method_outcomes (req : HttpServer.HTTPReq) :
  HttpServer.HTTPReq.method req = JS.str "GET"
  \/ HttpServer.HTTPReq.method req = JS.str "HEAD" ->
  HttpServer.readerFromReq req = Ok (HttpServer.readerFromConnLength 0)
  \/ exists msg, HttpServer.readerFromReq req = Throw (HTTPError 400 msg).
Proof.
  intros Hm. unfold HttpServer.readerFromReq.
  assert (negb (JS.strEq (HttpServer.HTTPReq.method req) (JS.str "GET")
                || JS.strEq (HttpServer.HTTPReq.method req) (JS.str "HEAD"))
          = false) as ->
    by (destruct Hm as [-> | ->]; reflexivity).
  cbn [negb andb].
  destruct (HttpServer.fieldGet _ (JS.str "Content-Length")) as [c|].
  - destruct (JS.parseInt _) as [n|]; [|right; eauto].
    destruct ((0 <? n) || HttpServer.isChunked _); [right; eauto|now left].
  - destruct ((0 <? -1) || HttpServer.isChunked _); [right; eauto|now left].
Qed.

Lemma bodyless_method_outcomes_witness :
  HttpServer.readerFromReq (getRequest [JS.bytes "Content-Length: -7"])
  = Ok (HttpServer.readerFromConnLength 0)
  \/ exists msg,
       HttpServer.readerFromReq (getRequest [JS.bytes "Content-Length: -7"])
       = Throw (HTTPError 400 msg).
Proof.
  apply (bodyless_method_outcomes (getRequest [JS.bytes "Content-Length: -7"])).
  left. reflexivity.
Defined.

(** ** Capacity of the accumulator *)

Section Capacity.

Lemma growLoop_tight (fuel : nat) (newLen : Z) :
  forall cap, 0 < cap ->
    growLoop fuel cap newLen = cap \/ growLoop fuel cap newLen < 2 * newLen.
Proof.
  induction fuel as [|fuel IH]; intros cap Hc; cbn [growLoop]; [now left|].
  destruct (Z.ltb_spec cap newLen); [|now left].
  destruct (IH (cap * 2)) as [-> | H']; [lia|right; lia|right; exact H'].
Qed.

Lemma reserve_tight (buf : DynBuf) (newLen : Z) :
  forall buf1, reserve buf newLen = Some buf1 ->
    capacity buf1 = capacity buf
    \/ capacity buf1 = 32
    \/ capacity buf1 < 2 * newLen.
Proof.
  intros buf1. unfold reserve, capacity.
  pose proof (blen_nonneg (DynBuf.data buf)) as Hcap.
  destruct (Z.ltb_spec (JS.blen (DynBuf.data buf)) newLen) as [Hlt|Hge];
    [|intros [= <-]; now left].
  set (cap0 := Z.max (JS.blen (DynBuf.data buf)) 32).
  pose proof (growLoop_tight (Z.to_nat newLen) newLen cap0) as Htight.
  destruct (growLoop_doubles (Z.to_nat newLen) newLen cap0) as [k Hk]; [lia|].
  set (cap := growLoop (Z.to_nat newLen) cap0 newLen) in *.
  assert (0 <= cap) as Hpos.
  { rewrite Hk. assert (0 < 2 ^ Z.of_nat k) by (apply Z.pow_pos_nonneg; lia). nia. }
  destruct (JS.copy _ _ 0 0) as [g|] eqn:Eg; [|discriminate].
  intros [= <-]. cbn [DynBuf.data].
  apply copy_length in Eg. rewrite blen_alloc in Eg. rewrite Eg.
  destruct Htight as [Heq|Hlt2]; lia.
Qed.

End Capacity.

(** X11. A push never over-allocates: after [bufPush], the capacity is
    what it was, or the floor 32, or less than twice the new length. *)
Theorem bufPush_capacity_bound (buf : DynBuf) (data : Buffer) :
  capacity (snd (bufPush buf data)) = capacity buf
  \/ capacity (snd (bufPush buf data)) = 32
  \/ capacity (snd (bufPush buf data)) < 2 * (DynBuf.length buf + JS.blen data).
Proof.
  unfold bufPush.
  destruct (reserve buf _) as [buf1|] eqn:Er; [|now left].
  apply reserve_tight in Er.
  destruct (JS.copy data _ _ 0) as [d|] eqn:Ed; cbn [snd]; [|exact Er].
  apply copy_length in Ed. unfold capacity in *. cbn [DynBuf.data].
  now rewrite Ed.
Qed.

(** X12. Whatever calls are made on the accumulator [serveClient] starts
    from, its capacity is 0 or 32 doubled some number of times. *)
Theorem capacity_power_of_two (ops : list Op) :
  capacity (snd (runOps ops emptyBuf)) = 0
  \/ exists k : nat, capacity (snd (runOps ops emptyBuf)) = 32 * 2 ^ Z.of_nat k.
Proof.
  assert (forall buf,
             capacity buf = 0 \/ (exists k : nat, capacity buf = 32 * 2 ^ Z.of_nat k) ->
             capacity (snd (runOps ops buf)) = 0
             \/ exists k : nat, capacity (snd (runOps ops buf)) = 32 * 2 ^ Z.of_nat k)
    as Hgen.
  { induction ops as [|op ops IH]; intros buf Hbuf; [exact Hbuf|].
    cbn [runOps].
    pose proof (stepOp_capacity op buf) as Hstep.
    assert (capacity (snd (stepOp op buf)) = 0
            \/ exists k : nat, capacity (snd (stepOp op buf)) = 32 * 2 ^ Z.of_nat k)
      as Hnext.
    { destruct op as [data|len]; cbn [capacityStep] in Hstep.
      - destruct Hstep as [_ [-> | (k & _ & ->)]]; [exact Hbuf|].
        right. destruct Hbuf as [-> | (j & ->)].
        + exists k. reflexivity.
        + exists (j + k)%nat.
          assert (0 < 2 ^ Z.of_nat j) by (apply Z.pow_pos_nonneg; lia).
          rewrite Z.max_l by nia.
          rewrite Nat2Z.inj_add, Z.pow_add_r by lia. ring.
      - rewrite Hstep. exact Hbuf. }
    destruct (stepOp op buf) as [[u|e|] buf']; cbn [snd] in *;
      [now apply IH|exact Hnext|exact Hnext]. }
  apply Hgen. now left.
Qed.

(** ** The two framers *)

Section Framers.

Lemma byte_eqb_sym (a b : byte) : Byte.eqb a b = Byte.eqb b a.
Proof.
  destruct (Byte.eqb a b) eqn:E1, (Byte.eqb b a) eqn:E2; try reflexivity.
  - apply Byte.byte_dec_bl in E1. subst b.
    now rewrite (Byte.byte_dec_lb (eq_refl a)) in E2.
  - apply Byte.byte_dec_bl in E2. subst b.
    now rewrite (Byte.byte_dec_lb (eq_refl a)) in E1.
Qed.

Lemma indexOfFrom_first_byte (c : byte) (l rest : Buffer) :
  forall i, noByte c l = true ->
            JS.indexOfFrom (l ++ [c] ++ rest) [c] i = i + JS.blen l.
Proof.
  induction l as [|x l IH]; intros i H.
  - cbn. rewrite (Byte.byte_dec_lb (eq_refl c)). cbn. lia.
  - apply noByte_cons in H. destruct H as [Hx Hl].
    cbn [app JS.indexOfFrom JS.isPrefix].
    rewrite byte_eqb_sym, Hx. cbn [andb].
    change (l ++ c :: rest) with (l ++ [c] ++ rest).
    rewrite (IH (i + 1) Hl). unfold JS.blen. cbn [List.length]. lia.
Qed.

Lemma firstn_of_live (buf : DynBuf) (pre post : Buffer) :
  wellFormed buf -> live buf = pre ++ post ->
  JS.subarray (DynBuf.data buf) 0 (JS.blen pre) = pre.
Proof.
  intros Hwf Hlive.
  pose proof (blen_live buf Hwf) as Hlen.
  rewrite Hlive, blen_app in Hlen.
  pose proof (blen_nonneg pre). pose proof (blen_nonneg post).
  unfold wellFormed, capacity in Hwf.
  rewrite subarray_prefix by lia.
  rewrite (live_wellFormed buf) in Hlive by assumption.
  pose proof (f_equal (firstn (Z.to_nat (JS.blen pre))) Hlive) as Hf.
  rewrite firstn_firstn, Nat.min_l in Hf by lia.
  rewrite Hf, firstn_app.
  rewrite firstn_all2 by (unfold JS.blen; lia).
  replace (Z.to_nat (JS.blen pre) - List.length pre)%nat with 0%nat
    by (unfold JS.blen; lia).
  cbn. now rewrite app_nil_r.
Qed.

(** The line framer on a live region that starts with a full line. *)
Lemma line_cut (buf : DynBuf) (line rest : Buffer) :
  wellFormed buf ->
  live buf = line ++ [x0a] ++ rest ->
  noByte x0a line = true ->
  LineServer.cutMessage buf
  = (Ok (Some (line ++ [x0a])), bufPop buf (JS.blen line + 1))
  /\ wellFormed (bufPop buf (JS.blen line + 1))
  /\ live (bufPop buf (JS.blen line + 1)) = rest.
Proof.
  intros Hwf Hlive Hline.
  pose proof (blen_live buf Hwf) as Hlen.
  rewrite Hlive, !blen_app in Hlen.
  change (JS.blen [x0a]) with 1 in Hlen.
  pose proof (blen_nonneg line). pose proof (blen_nonneg rest).
  assert (JS.blen (line ++ [x0a]) = JS.blen line + 1) as Hcut
    by (rewrite blen_app; reflexivity).
  split.
  - unfold LineServer.cutMessage. fold (live buf). rewrite Hlive.
    unfold JS.indexOf. rewrite indexOfFrom_first_byte by assumption.
    destruct (Z.ltb_spec (0 + JS.blen line) 0); [lia|].
    rewrite Z.add_0_l, <- Hcut.
    rewrite (firstn_of_live buf (line ++ [x0a]) rest Hwf)
      by (rewrite Hlive, <- app_assoc; reflexivity).
    reflexivity.
  - destruct (bufPop_drops buf (JS.blen line + 1) Hwf) as [Hwf' ->]; [lia|].
    split; [exact Hwf'|].
    rewrite Hlive, app_assoc.
    apply skipn_past_prefix.
    rewrite length_app. unfold JS.blen. cbn. lia.
Qed.

(** What [HttpServer.cutMessage] can do, whatever the accumulator. *)
Lemma http_cut (buf : DynBuf) :
  HttpServer.cutMessage buf = (Ok None, buf)
  \/ HttpServer.cutMessage buf
     = (Throw (HTTPError 413 (JS.str "Request Header Fields Too Large")), buf)
  \/ exists msg, HttpServer.cutMessage buf = (Throw (HTTPError 400 msg), buf).
Proof.
  unfold HttpServer.cutMessage.
  destruct (JS.indexOf _ HttpServer.splitter <? 0) eqn:Eidx.
  - destruct (HttpServer.kMaxHeaderLen <? DynBuf.length buf); auto.
  - apply Z.ltb_ge in Eidx. right. right.
    destruct (header_block _ _ Eidx) as [pre ->].
    destruct (parseHTTPReq_terminated pre) as [msg ->].
    eauto.
Qed.

End Framers.

(** X13. The line framer, when the live region starts with a line closed
    by a newline: the message is that line with its newline, and the
    accumulator is left holding exactly the bytes after it. *)
Theorem line_framer_cuts (buf : DynBuf) (line rest : Buffer) :
  wellFormed buf ->
  live buf = line ++ [x0a] ++ rest ->
  noByte x0a line = true ->
  exists buf',
    LineServer.cutMessage buf = (Ok (Some (line ++ [x0a])), buf')
    /\ wellFormed buf'
    /\ live buf' = rest.
Proof.
  intros Hwf Hlive Hline.
  destruct (line_cut buf line rest Hwf Hlive Hline) as (H1 & H2 & H3).
  eauto.
Qed.

Lemma line_framer_cuts_witness :
  exists buf',
    LineServer.cutMessage (snd (bufPush emptyBuf (JS.bytes "ab" ++ [x0a] ++ JS.bytes "cd")))
    = (Ok (Some (JS.bytes "ab" ++ [x0a])), buf')
    /\ wellFormed buf'
    /\ live buf' = JS.bytes "cd".
Proof.
  apply (line_framer_cuts
           (snd (bufPush emptyBuf (JS.bytes "ab" ++ [x0a] ++ JS.bytes "cd")))
           (JS.bytes "ab") (JS.bytes "cd")).
  - unfold wellFormed. vm_compute. split; discriminate.
  - reflexivity.
  - reflexivity.
Defined.

(** X14. The HTTP framer never returns a request and never removes a
    byte: on every accumulator it reports an incomplete header, or throws
    413, or throws 400, and the accumulator is the one it was given. *)
Theorem http_framer_never_yields (buf : DynBuf) :
  snd (HttpServer.cutMessage buf) = buf
  /\ (fst (HttpServer.cutMessage buf) = Ok None
      \/ fst (HttpServer.cutMessage buf)
         = Throw (HTTPError 413 (JS.str "Request Header Fields Too Large"))
      \/ exists msg,
           fst (HttpServer.cutMessage buf) = Throw (HTTPError 400 msg)).
Proof.
  destruct (http_cut buf) as [-> | [-> | [msg ->]]]; cbn [fst snd]; eauto.
Qed.

(** ** The promise wrapper *)

Section Promises.

Lemma nth_setNth_other {A : Type} (l : list A) :
  forall (p q : nat) (x d : A), p <> q -> nth p (setNth q x l) d = nth p l d.
Proof.
  induction l as [|y l IH]; intros p q x d Hpq; [now destruct q|].
  destruct q as [|q], p as [|p]; cbn; try reflexivity; try lia.
  apply IH. lia.
Qed.

Lemma settle_other (p q : nat) (s : Settlement) (w : World) :
  p <> q -> promiseState p (settle q s w) = promiseState p w.
Proof.
  intros Hpq. unfold settle.
  destruct (promiseState q w); try reflexivity.
  unfold promiseState. cbn. now apply nth_setNth_other.
Qed.

Lemma settle_settled (p q : nat) (s : Settlement) (w : World) :
  isSettled (promiseState p w) = true ->
  promiseState p (settle q s w) = promiseState p w.
Proof.
  intros Hp. destruct (Nat.eq_dec p q) as [->|Hpq]; [|now apply settle_other].
  unfold settle. destruct (promiseState q w) eqn:E; [discriminate|now rewrite E..].
Qed.

Lemma settled_in_range (p : nat) (w : World) :
  isSettled (promiseState p w) = true -> (p < List.length (promises w))%nat.
Proof.
  unfold promiseState. intros H.
  destruct (Nat.lt_ge_cases p (List.length (promises w))) as [Hlt|Hge];
    [exact Hlt|].
  rewrite nth_overflow in H by assumption. discriminate.
Qed.

Lemma dispatch_promise (ev : Event) (w : World) (p : nat) :
  isSettled (promiseState p w) = true \/ TCPConn.reader (conn w) <> Some p ->
  promiseState p (dispatch ev w) = promiseState p w.
Proof.
  intros H.
  assert (forall s c, promiseState p (settleReader s (mkWorld c (promises w)))
                      = promiseState p w
                      \/ TCPConn.reader c = Some p /\ isSettled (promiseState p w) = false)
    as Hsettle.
  { intros s c. unfold settleReader. cbn [conn].
    destruct (TCPConn.reader c) as [q|] eqn:Er; [|now left].
    destruct (Nat.eq_dec p q) as [->|Hpq].
    - destruct (isSettled (promiseState q w)) eqn:Es; [left|now right].
      now apply (settle_settled q q s (mkWorld c (promises w))).
    - left. now apply (settle_other p q s (mkWorld c (promises w))). }
  destruct ev as [data|e|]; cbn [dispatch];
    unfold onData, onError, onEnd, withConn; cbn [conn promises];
    match goal with
    | |- promiseState p (mkWorld _ (promises (settleReader ?s (mkWorld ?c _)))) = _ =>
        destruct (Hsettle s c) as [Hs|[Hr Hn]];
        [exact Hs|cbn [TCPConn.reader] in Hr; destruct H as [H|H]; congruence]
    end.
Qed.

Lemma dispatch_reader (ev : Event) (w : World) :
  TCPConn.reader (conn (dispatch ev w)) = None.
Proof. destruct ev; reflexivity. Qed.

Lemma promiseState_app (p : nat) (c c' : TCPConn) (ps extra : list Settlement) :
  (p < List.length ps)%nat ->
  promiseState p (mkWorld c' (ps ++ extra)) = promiseState p (mkWorld c ps).
Proof. intros H. unfold promiseState. cbn. now rewrite app_nth1. Qed.

Lemma soRead_promise (w : World) (p : nat) :
  (p < List.length (promises w))%nat ->
  promiseState p (snd (soRead w)) = promiseState p w.
Proof.
  intros Hp. unfold soRead.
  assert (promiseState p (mkWorld (conn w) (promises w ++ [Pending]))
          = promiseState p w) as Hnew.
  { destruct w as [c ps]. now apply promiseState_app. }
  cbn [conn promises].
  destruct (TCPConn.err (conn w)) as [e|]; cbn [snd].
  - rewrite settle_other by lia. exact Hnew.
  - unfold withConn. cbn [conn promises].
    destruct (TCPConn.ended (conn w)).
    + transitivity (promiseState p
                      (settle (List.length (promises w)) (Resolved (JS.bytes "EOF"))
                         (mkWorld (conn w) (promises w ++ [Pending]))));
        [reflexivity|].
      rewrite settle_other by lia. exact Hnew.
    + exact Hnew.
Qed.

Lemma soRead_fresh (w : World) :
  fst (soRead w) = List.length (promises w)
  /\ (List.length (promises w) < List.length (promises (snd (soRead w))))%nat.
Proof.
  unfold soRead. cbn [conn promises].
  assert (forall q s c, List.length (promises (settle q s (mkWorld c (promises w ++ [Pending]))))
                        = S (List.length (promises w))) as Hlen.
  { assert (forall (l : list Settlement) n x,
               List.length (setNth n x l) = List.length l) as Hset.
    { induction l as [|y l IH]; intros [|n] x; cbn; auto. }
    intros q s c. unfold settle.
    destruct (promiseState q _); cbn [promises];
      rewrite ?Hset, length_app; cbn; lia. }
  destruct (TCPConn.err (conn w)); cbn [fst snd]; split; try reflexivity.
  - rewrite Hlen. lia.
  - unfold withConn. cbn [promises conn].
    destruct (TCPConn.ended (conn w));
      [rewrite Hlen|cbn [promises]; rewrite length_app; cbn]; lia.
Qed.

Lemma act_settled (a : ConnAction) (w : World) (p : nat) :
  isSettled (promiseState p w) = true ->
  promiseState p (act w a) = promiseState p w.
Proof.
  intros H. destruct a as [ev|]; cbn [act].
  - apply dispatch_promise. now left.
  - apply soRead_promise. now apply settled_in_range.
Qed.

Lemma settle_conn (p : nat) (s : Settlement) (w : World) :
  conn (settle p s w) = conn w.
Proof. unfold settle. now destruct (promiseState p w). Qed.

Lemma settleReader_conn (s : Settlement) (w : World) :
  conn (settleReader s w) = conn w.
Proof.
  unfold settleReader. destruct (TCPConn.reader (conn w)); [|reflexivity].
  apply settle_conn.
Qed.

Lemma act_error (a : ConnAction) (w : World) :
  hasError w = true -> hasError (act w a) = true.
Proof.
  unfold hasError. intros H.
  destruct a as [[data|e|]|]; cbn [act dispatch].
  - unfold onData, withConn. cbn [conn TCPConn.err].
    now rewrite settleReader_conn.
  - unfold onError, withConn. cbn [conn TCPConn.err].
    now rewrite settleReader_conn.
  - unfold onEnd, withConn. cbn [conn TCPConn.err].
    now rewrite settleReader_conn.
  - unfold soRead. cbn [conn promises].
    destruct (TCPConn.err (conn w)) as [e|] eqn:Ee; [|discriminate].
    cbn [snd]. rewrite settle_conn. cbn [conn]. now rewrite Ee.
Qed.

End Promises.

Section PromiseFacts.

Lemma nth_last_added {A : Type} (l : list A) (x d : A) :
  nth (List.length l) (l ++ [x]) d = x.
Proof. rewrite app_nth2, Nat.sub_diag by lia. reflexivity. Qed.

Lemma runActions_settled (actions : list ConnAction) :
  forall (w : World) (p : nat),
    isSettled (promiseState p w) = true ->
    promiseState p (runActions actions w) = promiseState p w.
Proof.
  induction actions as [|a actions IH]; intros w p H; [reflexivity|].
  cbn [runActions fold_left]. fold (runActions actions (act w a)).
  rewrite IH by (now rewrite act_settled).
  now apply act_settled.
Qed.

Lemma runActions_error (actions : list ConnAction) :
  forall w : World, hasError w = true -> hasError (runActions actions w) = true.
Proof.
  induction actions as [|a actions IH]; intros w H; [exact H|].
  cbn [runActions fold_left]. fold (runActions actions (act w a)).
  apply IH. now apply act_error.
Qed.

Lemma soRead_errored (c : TCPConn) (ps : list Settlement) (e : Exn) :
  TCPConn.err c = Some e ->
  soRead (mkWorld c ps) = (List.length ps, mkWorld c (ps ++ [Rejected e])).
Proof.
  intros He. unfold soRead. cbn [conn promises]. rewrite He.
  unfold settle. rewrite promiseState_new. cbn [conn promises].
  now rewrite setNth_last.
Qed.

Lemma soRead_open (sock : Socket) (r : option nat) (ps : list Settlement) :
  soRead (openConn sock r ps)
  = (List.length ps,
     openConn (ResumeCall :: sock) (Some (List.length ps)) (ps ++ [Pending])).
Proof. reflexivity. Qed.

Lemma setNth_length {A : Type} (l : list A) :
  forall (n : nat) (x : A), List.length (setNth n x l) = List.length l.
Proof. induction l as [|y l IH]; intros [|n] x; cbn; auto. Qed.

Lemma dispatch_length (ev : Event) (w : World) :
  List.length (promises (dispatch ev w)) = List.length (promises w).
Proof.
  assert (forall s w', List.length (promises (settleReader s w'))
                       = List.length (promises w')) as Hs.
  { intros s w'. unfold settleReader, settle.
    destruct (TCPConn.reader (conn w')); [|reflexivity].
    destruct (promiseState _ _); cbn [promises]; now rewrite ?setNth_length. }
  destruct ev; cbn [dispatch]; unfold onData, onError, onEnd, withConn;
    cbn [promises]; now rewrite Hs.
Qed.

Lemma soRead_reader (w : World) :
  TCPConn.reader (conn (snd (soRead w))) = Some (List.length (promises w))
  \/ TCPConn.reader (conn (snd (soRead w))) = TCPConn.reader (conn w).
Proof.
  unfold soRead. cbn [conn promises].
  destruct (TCPConn.err (conn w)); cbn [snd]; [right|now left].
  now rewrite settle_conn.
Qed.

(** A promise that is pending and is not the one in [conn.reader] stays
    pending whatever happens next. *)
Lemma orphan_stays (actions : list ConnAction) :
  forall (w : World) (p : nat),
    TCPConn.reader (conn w) <> Some p ->
    promiseState p w = Pending ->
    (p < List.length (promises w))%nat ->
    promiseState p (runActions actions w) = Pending.
Proof.
  induction actions as [|a actions IH]; intros w p Hr Hp Hlt; [exact Hp|].
  cbn [runActions fold_left]. fold (runActions actions (act w a)).
  destruct a as [ev|]; cbn [act]; apply IH.
  - rewrite dispatch_reader. discriminate.
  - rewrite dispatch_promise by (now right). exact Hp.
  - now rewrite dispatch_length.
  - destruct (soRead_reader w) as [-> | ->]; [|exact Hr].
    intros [= H]. lia.
  - rewrite soRead_promise by assumption. exact Hp.
  - pose proof (soRead_fresh w) as [_ H]. lia.
Qed.

End PromiseFacts.

Lemma read_then_event (sock : Socket) (ps : list Settlement) (ev : Event) :
  promiseState (List.length ps)
    (dispatch ev
       (openConn (ResumeCall :: sock) (Some (List.length ps)) (ps ++ [Pending])))
  = outcomeOf ev.
Proof.
  destruct ev; cbn [dispatch outcomeOf];
    unfold onData, onError, onEnd, withConn, settleReader, settle, openConn;
    cbn [conn TCPConn.reader]; rewrite promiseState_new;
    cbn [conn promises]; rewrite setNth_last;
    unfold promiseState; cbn [promises]; apply nth_last_added.
Qed.

(** X15. The first event after a read decides that read for good. On a
    connection with no error recorded and no end of stream seen, [soRead]
    followed by a data event has its promise resolved with the chunk, by an
    error event rejected with the error, by the end of the stream resolved
    with the three bytes ["EOF"]; and whatever events and reads follow, the
    promise keeps that outcome. *)
Theorem first_event_decides_read
    (sock : Socket) (r : option nat) (ps : list Settlement)
    (ev : Event) (later : list ConnAction) :
  promiseState (fst (soRead (openConn sock r ps)))
    (runActions (Emit ev :: later) (snd (soRead (openConn sock r ps))))
  = outcomeOf ev.
Proof.
  rewrite soRead_open. cbn [fst snd runActions fold_left act].
  fold (runActions later
          (dispatch ev
             (openConn (ResumeCall :: sock) (Some (List.length ps))
                (ps ++ [Pending])))).
  rewrite runActions_settled.
  - apply read_then_event.
  - rewrite read_then_event. now destruct ev.
Qed.

(** X16. Once an error is recorded on the connection, whatever events and
    reads follow, [soRead] rejects its promise at once and neither resumes
    the socket nor stores its callbacks. *)
Theorem reads_reject_after_error (actions : list ConnAction) (w : World) :
  hasError w = true ->
  isRejected (promiseState (fst (soRead (runActions actions w)))
                (snd (soRead (runActions actions w)))) = true
  /\ conn (snd (soRead (runActions actions w))) = conn (runActions actions w).
Proof.
  intros H. apply (runActions_error actions) in H.
  destruct (runActions actions w) as [c ps]. unfold hasError in H. cbn in H.
  destruct (TCPConn.err c) as [e|] eqn:Ee; [|discriminate].
  rewrite (soRead_errored c ps e Ee). cbn [fst snd conn].
  split; [|reflexivity].
  unfold promiseState. cbn [promises]. now rewrite nth_last_added.
Qed.

Lemma reads_reject_after_error_witness :
  isRejected
    (promiseState
       (fst (soRead (runActions [CallRead; Emit (DataEvent (JS.bytes "x"))]
                       (onError (TransportError 1) (soInit [])))))
       (snd (soRead (runActions [CallRead; Emit (DataEvent (JS.bytes "x"))]
                       (onError (TransportError 1) (soInit [])))))) = true
  /\ conn (snd (soRead (runActions [CallRead; Emit (DataEvent (JS.bytes "x"))]
                          (onError (TransportError 1) (soInit [])))))
     = conn (runActions [CallRead; Emit (DataEvent (JS.bytes "x"))]
               (onError (TransportError 1) (soInit []))).
Proof.
  apply (reads_reject_after_error [CallRead; Emit (DataEvent (JS.bytes "x"))]
           (onError (TransportError 1) (soInit []))).
  reflexivity.
Defined.

(** X17. Two reads issued one after the other on an open connection: the
    second takes the place of the first in [conn.reader], and the promise of
    the first is never settled, whatever events and reads follow. *)
Theorem overlapping_read_is_orphaned
    (sock : Socket) (r : option nat) (ps : list Settlement)
    (actions : list ConnAction) :
  promiseState (fst (soRead (openConn sock r ps)))
    (runActions actions (snd (soRead (snd (soRead (openConn sock r ps))))))
  = Pending.
Proof.
  rewrite soRead_open. cbn [fst snd]. rewrite soRead_open. cbn [snd].
  apply orphan_stays.
  - cbn. rewrite length_app. cbn. intros [= H]. lia.
  - unfold promiseState, openConn. cbn [promises].
    rewrite <- app_assoc. cbn [app].
    rewrite app_nth2, Nat.sub_diag by lia. reflexivity.
  - unfold openConn. cbn [promises]. rewrite !length_app. cbn. lia.
Qed.

Lemma await_data
    (sock : Socket) (r : option nat) (ps : list Settlement)
    (data : Buffer) (later : list Event) :
  await (List.length ps) (DataEvent data :: later)
    (openConn (ResumeCall :: sock) (Some (List.length ps)) (ps ++ [Pending]))
  = (Resolved data, later,
     openConn (PauseCall :: ResumeCall :: sock) None (ps ++ [Resolved data])).
Proof.
  unfold await, openConn. rewrite promiseState_new.
  cbn [deliver conn TCPConn.socket flowing dispatch].
  unfold onData, withConn, settleReader, settle. cbn [conn TCPConn.reader].
  rewrite promiseState_new. cbn [conn promises TCPConn.socket TCPConn.err
                                   TCPConn.ended TCPConn.reader].
  rewrite setNth_last.
  unfold promiseState at 1. cbn [promises]. rewrite nth_last_added.
  reflexivity.
Qed.

(** X18. A read on an open connection followed by a data event: the
    promise is resolved with that chunk, the event is the only one taken
    from the transport, and the socket is left paused with [conn.reader]
    cleared. *)
Theorem read_takes_one_chunk
    (sock : Socket) (r : option nat) (ps : list Settlement)
    (data : Buffer) (later : list Event) :
  await (fst (soRead (openConn sock r ps))) (DataEvent data :: later)
    (snd (soRead (openConn sock r ps)))
  = (Resolved data, later,
     openConn (PauseCall :: ResumeCall :: sock) None (ps ++ [Resolved data])).
Proof. rewrite soRead_open. cbn [fst snd]. apply (await_data sock r). Qed.

(** ** Body readers *)

Section ReaderFacts.

Import HttpServer.

Lemma blen_subarray_prefix (b : Buffer) (n : Z) :
  0 <= n <= JS.blen b -> JS.blen (JS.subarray b 0 n) = n.
Proof.
  intros H. rewrite subarray_prefix by assumption.
  unfold JS.blen in *. rewrite length_firstn. lia.
Qed.

(** The storage after a pop-front of at most the bytes held. *)
Lemma bufPop_data (buf : DynBuf) (n : Z) :
  wellFormed buf -> 0 <= n <= DynBuf.length buf ->
  DynBuf.data (bufPop buf n)
  = if 0 <? DynBuf.length buf - n
    then firstn (Z.to_nat (DynBuf.length buf - n)) (skipn (Z.to_nat n) (DynBuf.data buf))
           ++ skipn (Z.to_nat (DynBuf.length buf - n)) (DynBuf.data buf)
    else DynBuf.data buf.
Proof.
  intros Hwf Hn. unfold wellFormed, capacity in Hwf.
  unfold bufPop. cbn [DynBuf.data]. unfold JS.copyWithin.
  rewrite (JS_relIndex_0 (JS.blen (DynBuf.data buf))) by lia.
  rewrite (relIndex_inside _ n), (relIndex_inside _ (DynBuf.length buf)) by lia.
  replace (Z.min (DynBuf.length buf - n) (JS.blen (DynBuf.data buf) - 0))
    with (DynBuf.length buf - n) by lia.
  destruct (0 <? DynBuf.length buf - n); reflexivity.
Qed.

(** The part of [read] after the refill, for a reader with bytes to take
    from a well-formed accumulator that holds some. *)
Lemma read_consume (len remain : Z) (s : Session) :
  0 < remain -> 0 < DynBuf.length (buf s) ->
  read (BodyReader.mk len (FromConnLength remain)) s
  = (Ok (JS.subarray
           (DynBuf.data (bufPop (buf s) (Z.min (DynBuf.length (buf s)) remain)))
           0 (Z.min (DynBuf.length (buf s)) remain)),
     BodyReader.mk len
       (FromConnLength (remain - Z.min (DynBuf.length (buf s)) remain)),
     mkSession (world s) (incoming s)
       (bufPop (buf s) (Z.min (DynBuf.length (buf s)) remain))).
Proof.
  intros Hrem Hlen. unfold read. cbn [BodyReader.read BodyReader.length].
  destruct (Z.leb_spec remain 0); [lia|].
  destruct (Z.leb_spec (DynBuf.length (buf s)) 0); [lia|].
  reflexivity.
Qed.

Lemma refill_returns (s s1 : Session) :
  wellFormed (buf s) -> DynBuf.length (buf s) <= 0 ->
  refill s = (Ok tt, s1) ->
  wellFormed (buf s1) /\ 0 < DynBuf.length (buf s1).
Proof.
  intros Hwf Hlen. unfold refill.
  destruct (soRead (world s)) as [p w].
  destruct (await p (incoming s) w) as [[[|data|e] evs] w'];
    try discriminate.
  destruct (bufPush_appends (buf s) data Hwf) as (buf1 & -> & Hwf1 & Hlive).
  destruct (Z.eqb_spec (JS.blen data) 0) as [|Hne]; [discriminate|].
  intros [= <-]. cbn [buf]. split; [exact Hwf1|].
  pose proof (blen_live _ Hwf1) as H1. pose proof (blen_live _ Hwf) as H0.
  rewrite Hlive, blen_app in H1.
  pose proof (blen_nonneg data). unfold wellFormed in Hwf. lia.
Qed.

End ReaderFacts.

(** X19. The in-memory reader gives its chunk on the first read and an
    empty chunk on every later one, and leaves the connection and the
    accumulator untouched. *)
Theorem memory_reader_reads_once (data : Buffer) (s : HttpServer.Session) :
  HttpServer.read (HttpServer.readerFromMemory data) s
  = (Ok data,
     HttpServer.BodyReader.mk (JS.blen data) (HttpServer.FromMemory data true), s)
  /\ forall n : nat,
       HttpServer.nthRead (S n) (HttpServer.readerFromMemory data) s = Ok [].
Proof.
  split; [reflexivity|].
  intros n. cbn [HttpServer.nthRead HttpServer.read HttpServer.readerFromMemory
                   HttpServer.BodyReader.read HttpServer.BodyReader.length].
  induction n as [|n IH]; [reflexivity|exact IH].
Qed.

Lemma read_whole (s : HttpServer.Session) (len remain : Z) :
  wellFormed (HttpServer.buf s) ->
  0 < DynBuf.length (HttpServer.buf s) <= remain ->
  HttpServer.read (HttpServer.BodyReader.mk len (HttpServer.FromConnLength remain)) s
  = (Ok (live (HttpServer.buf s)),
     HttpServer.BodyReader.mk len
       (HttpServer.FromConnLength (remain - DynBuf.length (HttpServer.buf s))),
     HttpServer.mkSession (HttpServer.world s) (HttpServer.incoming s)
       (bufPop (HttpServer.buf s) (DynBuf.length (HttpServer.buf s))))
  /\ live (bufPop (HttpServer.buf s) (DynBuf.length (HttpServer.buf s))) = [].
Proof.
  intros Hwf Hlen.
  rewrite (read_consume len remain s) by lia.
  replace (Z.min (DynBuf.length (HttpServer.buf s)) remain)
    with (DynBuf.length (HttpServer.buf s)) by lia.
  rewrite bufPop_data by (assumption || lia).
  rewrite Z.sub_diag. cbn [Z.ltb Z.compare].
  split; [reflexivity|].
  destruct (bufPop_drops (HttpServer.buf s) (DynBuf.length (HttpServer.buf s)) Hwf)
    as [_ ->]; [lia|].
  apply skipn_all2.
  pose proof (blen_live _ Hwf) as H. unfold JS.blen in H. lia.
Qed.

(** X20. A length-bounded read when the accumulator holds some bytes and
    no more than remain to be read: the chunk is the whole live region, the
    accumulator is left empty and the count goes down by its length; the
    connection is not read. *)
Theorem read_takes_whole_accumulator
    (s : HttpServer.Session) (len remain : Z) :
  wellFormed (HttpServer.buf s) ->
  0 < DynBuf.length (HttpServer.buf s) <= remain ->
  HttpServer.read (HttpServer.BodyReader.mk len (HttpServer.FromConnLength remain)) s
  = (Ok (live (HttpServer.buf s)),
     HttpServer.BodyReader.mk len
       (HttpServer.FromConnLength (remain - DynBuf.length (HttpServer.buf s))),
     HttpServer.mkSession (HttpServer.world s) (HttpServer.incoming s)
       (bufPop (HttpServer.buf s) (DynBuf.length (HttpServer.buf s))))
  /\ live (bufPop (HttpServer.buf s) (DynBuf.length (HttpServer.buf s))) = [].
Proof. apply read_whole. Qed.

Lemma read_takes_whole_accumulator_witness :
  HttpServer.read (HttpServer.BodyReader.mk 5 (HttpServer.FromConnLength 5))
    (HttpServer.mkSession (soInit []) [] (snd (bufPush emptyBuf (JS.bytes "abc"))))
  = (Ok (live (snd (bufPush emptyBuf (JS.bytes "abc")))),
     HttpServer.BodyReader.mk 5 (HttpServer.FromConnLength (5 - 3)),
     HttpServer.mkSession (soInit []) []
       (bufPop (snd (bufPush emptyBuf (JS.bytes "abc"))) 3))
  /\ live (bufPop (snd (bufPush emptyBuf (JS.bytes "abc"))) 3) = [].
Proof.
  apply (read_takes_whole_accumulator
           (HttpServer.mkSession (soInit []) []
              (snd (bufPush emptyBuf (JS.bytes "abc")))) 5 5).
  - unfold wellFormed. vm_compute. split; discriminate.
  - vm_compute. split; [reflexivity|discriminate].
Defined.

(** X21. A length-bounded read when the accumulator holds at least twice
    the bytes that remain to be read: the chunk returned is not the first
    [remain] bytes of the live region but the [remain] bytes after them
    (the view is copied after the pop-front has moved the rest of the data
    over it). The accumulator is left with the live region minus its first
    [remain] bytes. *)
Theorem read_returns_shifted_bytes
    (s : HttpServer.Session) (len remain : Z) :
  wellFormed (HttpServer.buf s) ->
  0 < remain ->
  2 * remain <= DynBuf.length (HttpServer.buf s) ->
  HttpServer.read (HttpServer.BodyReader.mk len (HttpServer.FromConnLength remain)) s
  = (Ok (firstn (Z.to_nat remain)
           (skipn (Z.to_nat remain) (live (HttpServer.buf s)))),
     HttpServer.BodyReader.mk len (HttpServer.FromConnLength 0),
     HttpServer.mkSession (HttpServer.world s) (HttpServer.incoming s)
       (bufPop (HttpServer.buf s) remain))
  /\ live (bufPop (HttpServer.buf s) remain)
     = skipn (Z.to_nat remain) (live (HttpServer.buf s)).
Proof.
  intros Hwf Hrem Hlen.
  rewrite (read_consume len remain s) by lia.
  replace (Z.min (DynBuf.length (HttpServer.buf s)) remain) with remain by lia.
  rewrite Z.sub_diag.
  destruct (bufPop_drops (HttpServer.buf s) remain Hwf) as [Hwf' Hlive]; [lia|].
  split; [|exact Hlive].
  f_equal. f_equal. f_equal.
  rewrite bufPop_data by (assumption || lia).
  destruct (Z.ltb_spec 0 (DynBuf.length (HttpServer.buf s) - remain)); [|lia].
  rewrite (live_wellFormed _ Hwf).
  unfold wellFormed, capacity in Hwf.
  set (L := DynBuf.length (HttpServer.buf s)) in *.
  set (d := DynBuf.data (HttpServer.buf s)) in *.
  assert (JS.blen (firstn (Z.to_nat (L - remain)) (skipn (Z.to_nat remain) d))
          = L - remain) as Hpart.
  { unfold JS.blen in *. rewrite length_firstn, length_skipn. lia. }
  rewrite subarray_prefix
    by (rewrite blen_app, Hpart; pose proof (blen_nonneg (skipn (Z.to_nat (L - remain)) d)); lia).
  rewrite firstn_app, firstn_firstn.
  replace (Z.to_nat remain
           - List.length (firstn (Z.to_nat (L - remain)) (skipn (Z.to_nat remain) d)))%nat
    with 0%nat by (unfold JS.blen in Hpart; lia).
  cbn [firstn]. rewrite app_nil_r.
  rewrite skipn_firstn_comm, firstn_firstn.
  f_equal. lia.
Qed.

Lemma read_returns_shifted_bytes_witness :
  HttpServer.read (HttpServer.BodyReader.mk 2 (HttpServer.FromConnLength 2))
    (HttpServer.mkSession (soInit []) [] (snd (bufPush emptyBuf (JS.bytes "abcdef"))))
  = (Ok (firstn (Z.to_nat 2)
           (skipn (Z.to_nat 2) (live (snd (bufPush emptyBuf (JS.bytes "abcdef")))))),
     HttpServer.BodyReader.mk 2 (HttpServer.FromConnLength 0),
     HttpServer.mkSession (soInit []) []
       (bufPop (snd (bufPush emptyBuf (JS.bytes "abcdef"))) 2))
  /\ live (bufPop (snd (bufPush emptyBuf (JS.bytes "abcdef"))) 2)
     = skipn (Z.to_nat 2) (live (snd (bufPush emptyBuf (JS.bytes "abcdef")))).
Proof.
  apply (read_returns_shifted_bytes
           (HttpServer.mkSession (soInit []) []
              (snd (bufPush emptyBuf (JS.bytes "abcdef")))) 2 2).
  - unfold wellFormed. vm_compute. split; discriminate.
  - lia.
  - vm_compute. discriminate.
Defined.

(** X22. Every length-bounded read that returns a chunk while bytes remain
    makes progress within the declared length: the chunk is not empty, it
    is no longer than what remained, the count goes down by its length, and
    the accumulator stays well-formed. *)
Theorem read_progress
    (s s' : HttpServer.Session) (len remain : Z) (chunk : Buffer)
    (r' : HttpServer.BodyReader) :
  wellFormed (HttpServer.buf s) ->
  0 < remain ->
  HttpServer.read (HttpServer.BodyReader.mk len (HttpServer.FromConnLength remain)) s
  = (Ok chunk, r', s') ->
  0 < JS.blen chunk <= remain
  /\ r' = HttpServer.BodyReader.mk len
            (HttpServer.FromConnLength (remain - JS.blen chunk))
  /\ wellFormed (HttpServer.buf s').
Proof.
  intros Hwf Hrem Hread.
  assert (exists s1, wellFormed (HttpServer.buf s1)
                     /\ 0 < DynBuf.length (HttpServer.buf s1)
                     /\ HttpServer.read
                          (HttpServer.BodyReader.mk len (HttpServer.FromConnLength remain)) s1
                        = (Ok chunk, r', s'))
    as (s1 & Hwf1 & Hlen1 & Hread1).
  { destruct (Z.leb_spec (DynBuf.length (HttpServer.buf s)) 0) as [Hle|Hgt];
      [|exists s; auto].
    unfold HttpServer.read in Hread.
    cbn [HttpServer.BodyReader.read HttpServer.BodyReader.length] in Hread.
    destruct (Z.leb_spec remain 0); [lia|].
    destruct (Z.leb_spec (DynBuf.length (HttpServer.buf s)) 0); [|lia].
    destruct (HttpServer.refill s) as [[u|e|] s1] eqn:Efill; try discriminate.
    destruct u.
    destruct (refill_returns s s1 Hwf Hle Efill) as [Hwf1 Hlen1].
    exists s1. split; [exact Hwf1|split; [exact Hlen1|]].
    rewrite (read_consume len remain s1) by lia. exact Hread. }
  rewrite (read_consume len remain s1) in Hread1 by lia.
  injection Hread1 as <- <- <-.
  cbn [HttpServer.BodyReader.length HttpServer.buf].
  change (JS.copyWithin (DynBuf.data ?b) 0 ?n (DynBuf.length ?b))
    with (DynBuf.data (bufPop b n)).
  set (consume := Z.min (DynBuf.length (HttpServer.buf s1)) remain).
  destruct (bufPop_drops (HttpServer.buf s1) consume Hwf1) as [Hwf' _];
    [subst consume; lia|].
  assert (JS.blen (JS.subarray (DynBuf.data (bufPop (HttpServer.buf s1) consume)) 0 consume)
          = consume) as ->.
  { apply blen_subarray_prefix.
    fold (capacity (bufPop (HttpServer.buf s1) consume)).
    rewrite bufPop_capacity. unfold wellFormed in Hwf1. subst consume. lia. }
  repeat split; try exact Hwf'; subst consume; try lia; apply Hwf'.
Qed.

Lemma read_progress_witness :
  0 < JS.blen (JS.bytes "ab") <= 5
  /\ HttpServer.BodyReader.mk 5 (HttpServer.FromConnLength 3)
     = HttpServer.BodyReader.mk 5
         (HttpServer.FromConnLength (5 - JS.blen (JS.bytes "ab")))
  /\ wellFormed
       (HttpServer.buf (snd (HttpServer.read (HttpServer.readerFromConnLength 5)
                                (sampleSession [])))).
Proof.
  apply (read_progress (sampleSession [])
           (snd (HttpServer.read (HttpServer.readerFromConnLength 5) (sampleSession [])))
           5 5 (JS.bytes "ab")
           (HttpServer.BodyReader.mk 5 (HttpServer.FromConnLength 3))).
  - unfold wellFormed. vm_compute. split; discriminate.
  - lia.
  - reflexivity.
Defined.

(** X23. With an error recorded on the connection and nothing in the
    accumulator, a length-bounded read with bytes remaining throws that
    error; the reader and the accumulator are unchanged. *)
Theorem read_throws_recorded_error
    (s : HttpServer.Session) (len remain : Z) (e : Exn) :
  TCPConn.err (conn (HttpServer.world s)) = Some e ->
  DynBuf.length (HttpServer.buf s) <= 0 ->
  0 < remain ->
  fst (HttpServer.read (HttpServer.BodyReader.mk len (HttpServer.FromConnLength remain)) s)
  = (Throw e, HttpServer.BodyReader.mk len (HttpServer.FromConnLength remain))
  /\ HttpServer.buf
       (snd (HttpServer.read
               (HttpServer.BodyReader.mk len (HttpServer.FromConnLength remain)) s))
     = HttpServer.buf s.
Proof.
  intros He Hlen Hrem. unfold HttpServer.read.
  cbn [HttpServer.BodyReader.read].
  destruct (Z.leb_spec remain 0); [lia|].
  destruct (Z.leb_spec (DynBuf.length (HttpServer.buf s)) 0); [|lia].
  unfold HttpServer.refill.
  destruct s as [[c ps] evs b]. cbn [HttpServer.world conn] in *.
  rewrite (soRead_errored c ps e He).
  unfold await, promiseState. cbn [promises]. rewrite nth_last_added.
  split; reflexivity.
Qed.

Lemma read_throws_recorded_error_witness :
  fst (HttpServer.read (HttpServer.BodyReader.mk 5 (HttpServer.FromConnLength 5))
         (HttpServer.mkSession (onError (TransportError 7) (soInit []))
            [DataEvent (JS.bytes "ab")] emptyBuf))
  = (Throw (TransportError 7),
     HttpServer.BodyReader.mk 5 (HttpServer.FromConnLength 5))
  /\ HttpServer.buf
       (snd (HttpServer.read
               (HttpServer.BodyReader.mk 5 (HttpServer.FromConnLength 5))
               (HttpServer.mkSession (onError (TransportError 7) (soInit []))
                  [DataEvent (JS.bytes "ab")] emptyBuf)))
     = emptyBuf.
Proof.
  apply (read_throws_recorded_error
           (HttpServer.mkSession (onError (TransportError 7) (soInit []))
              [DataEvent (JS.bytes "ab")] emptyBuf) 5 5 (TransportError 7)).
  - reflexivity.
  - cbn. lia.
  - lia.
Defined.

(** ** The serving loops *)

Section Serving.

Lemma receive_keeps (s : Served) :
  written (endState (receive s)) = written s
  /\ acks (endState (receive s)) = acks s
  /\ destroyed (endState (receive s)) = destroyed s.
Proof.
  unfold receive.
  destruct (soRead _) as [p w].
  destruct (await _ _ _) as [[[|data|e] evs] w']; try (now repeat split).
  destruct (bufPush _ _) as [[u|e|] b]; now repeat split.
Qed.

Lemma withBuf_same (s : Served) : withBuf (HttpServer.buf (session s)) s = s.
Proof. destruct s as [[w i b] wr a d]. reflexivity. Qed.

Lemma wellFormed_emptyBuf : wellFormed emptyBuf.
Proof. unfold wellFormed. cbn. lia. Qed.

Lemma receive_chunk
    (sock : Socket) (r : option nat) (ps : list Settlement)
    (data : Buffer) (later : list Event) (b : DynBuf)
    (wr : list Buffer) (a : nat -> option Exn) (d : bool) :
  wellFormed b ->
  exists b',
    receive (mkServed (HttpServer.mkSession (openConn sock r ps)
                         (DataEvent data :: later) b) wr a d)
    = Returned data
        (mkServed (HttpServer.mkSession
                     (openConn (PauseCall :: ResumeCall :: sock) None
                        (ps ++ [Resolved data])) later b') wr a d)
    /\ wellFormed b' /\ live b' = live b ++ data.
Proof.
  intros Hwf. unfold receive. cbn [session HttpServer.world HttpServer.incoming
                                    HttpServer.buf].
  rewrite soRead_open, (await_data sock r).
  destruct (bufPush_appends b data Hwf) as (b' & -> & Hwf' & Hlive).
  exists b'. split; [reflexivity|]. split; assumption.
Qed.

Lemma http_round_written (inner : nat) (s : Served) :
  written (endState (HttpServe.serveRound inner s)) = written s.
Proof.
  unfold HttpServe.serveRound.
  destruct (http_cut (HttpServer.buf (session s))) as [-> | [-> | [msg ->]]];
    try (destruct s as [[w i b] wr a d]; reflexivity).
  rewrite withBuf_same.
  pose proof (receive_keeps s) as [Hw _].
  destruct (receive s) as [data s'|e s'|s'|s']; cbn [endState] in *;
    try exact Hw.
  destruct (_ && _); [exact Hw|].
  destruct (JS.blen data =? 0); exact Hw.
Qed.

Lemma http_loop_written (fuel inner : nat) :
  forall s, written (endState (HttpServe.serveLoop fuel inner s)) = written s.
Proof.
  induction fuel as [|fuel IH]; intros s; [reflexivity|].
  cbn [HttpServe.serveLoop].
  pose proof (http_round_written inner s) as Hr.
  destruct (HttpServe.serveRound inner s) as [[|] s'|e s'|s'|s'];
    cbn [endState] in *; try exact Hr.
  now rewrite IH.
Qed.

Lemma indexOf_nonempty (data pat : Buffer) :
  0 <= JS.indexOf data pat -> pat <> [] -> JS.blen data <> 0.
Proof.
  intros H Hpat. destruct (indexOf_found _ _ H) as (pre & post & -> & _).
  rewrite !blen_app. pose proof (blen_nonneg pre). pose proof (blen_nonneg post).
  destruct pat as [|x pat]; [contradiction|].
  unfold JS.blen at 2. cbn [List.length]. lia.
Qed.

End Serving.

(** X24. The HTTP server never writes to the socket: whatever the
    transport delivers and however many rounds the loop of [serveClient]
    makes, the chunks handed to [socket.write] are those that were there
    when it started. *)
Theorem http_server_never_writes (fuel inner : nat) (s : Served) :
  written (endState (HttpServe.serveLoop fuel inner s)) = written s.
Proof. apply http_loop_written. Qed.

(** X25. A client whose first chunk holds a full header block (CR LF CR LF
    somewhere in it) gets no answer: [serveClient] throws an [HTTPError]
    with code 400 in its second round, nothing was written, and [newConn]
    then destroys the socket. *)
Theorem http_header_block_is_refused
    (fuel inner : nat) (sock : Socket) (data : Buffer) (later : list Event)
    (answers : nat -> option Exn) :
  0 <= JS.indexOf data HttpServer.splitter ->
  exists msg s',
    HttpServe.serveClient (S (S fuel)) inner sock (DataEvent data :: later) answers
    = Raised (HTTPError 400 msg) s'
    /\ written s' = []
    /\ HttpServe.newConn (S (S fuel)) inner sock (DataEvent data :: later) answers
       = Returned tt (destroy s').
Proof.
  intros Hidx.
  assert (exists msg s',
             HttpServe.serveClient (S (S fuel)) inner sock (DataEvent data :: later) answers
             = Raised (HTTPError 400 msg) s' /\ written s' = [])
    as (msg & s' & Hserve & Hw).
  { unfold HttpServe.serveClient, accepted.
    cbn [HttpServe.serveLoop]. unfold HttpServe.serveRound at 1.
    cbn [session HttpServer.buf].
    change (HttpServer.cutMessage emptyBuf) with (@Ok (option HttpServer.HTTPReq) None, emptyBuf).
    cbv iota. unfold withBuf, withSession.
    cbn [session written HttpServer.world HttpServer.incoming].
    destruct (receive_chunk sock None [] data later emptyBuf [] answers false
                wellFormed_emptyBuf) as (b & Hrecv & Hwf & Hlive).
    change (soInit sock) with (openConn sock None []).
    cbn [acks destroyed]. rewrite Hrecv.
    destruct (Z.eqb_spec (JS.blen data) 0) as [H0|_];
      [exfalso; revert H0; apply (indexOf_nonempty data HttpServer.splitter);
       [assumption|discriminate]|].
    cbn [andb].
    unfold HttpServe.serveRound, HttpServer.cutMessage.
    cbn [session HttpServer.buf]. fold (live b).
    change (live emptyBuf) with (@nil byte) in Hlive. cbn [app] in Hlive.
    rewrite Hlive.
    destruct (Z.ltb_spec (JS.indexOf data HttpServer.splitter) 0); [lia|].
    pose proof (header_block (DynBuf.data b) (DynBuf.length b)) as Hblock.
    cbv zeta in Hblock. fold (live b) in Hblock. rewrite Hlive in Hblock.
    destruct (Hblock Hidx) as [pre ->].
    destruct (parseHTTPReq_terminated pre) as [msg ->].
    eexists msg, _. split; reflexivity. }
  exists msg, s'. repeat split; try assumption.
  unfold HttpServe.newConn. now rewrite Hserve.
Qed.

Lemma http_header_block_is_refused_witness :
  exists msg s',
    HttpServe.serveClient 2 3 [] [DataEvent sampleRequest] allAcked
    = Raised (HTTPError 400 msg) s'
    /\ written s' = []
    /\ HttpServe.newConn 2 3 [] [DataEvent sampleRequest] allAcked
       = Returned tt (destroy s').
Proof.
  apply (http_header_block_is_refused 0 3 [] sampleRequest [] allAcked).
  vm_compute. discriminate.
Defined.

Section EchoLoop.

Lemma bufEq_refl (a : Buffer) : bufEq a a = true.
Proof.
  induction a as [|x a IH]; [reflexivity|].
  cbn. now rewrite (Byte.byte_dec_lb (eq_refl x)), IH.
Qed.

Lemma bufEq_eq (a : Buffer) : forall b, bufEq a b = true -> a = b.
Proof.
  induction a as [|x a IH]; intros [|y b] H; cbn in H; try discriminate;
    [reflexivity|].
  apply andb_true_iff in H. destruct H as [Hx Hab].
  apply Byte.byte_dec_bl in Hx. subst y. f_equal. now apply IH.
Qed.

Lemma bufEq_with_newline (a b : Buffer) :
  bufEq a b = false -> bufEq (a ++ [x0a]) (b ++ [x0a]) = false.
Proof.
  intros H. destruct (bufEq (a ++ [x0a]) (b ++ [x0a])) eqn:E; [|reflexivity].
  apply bufEq_eq, app_inv_tail in E. subst b.
  now rewrite bufEq_refl in H.
Qed.



Lemma echo_round
    (w : World) (i : list Event) (b : DynBuf) (wr : list Buffer)
    (a : nat -> option Exn) (d : bool) (line rest : Buffer) :
  TCPConn.err (conn w) = None ->
  a (List.length wr) = None ->
  wellFormed b ->
  live b = line ++ [x0a] ++ rest ->
  noByte x0a line = true ->
  bufEq line (JS.bytes "quit") = false ->
  EchoServe.serveRound (mkServed (HttpServer.mkSession w i b) wr a d)
  = Returned Continue
      (mkServed (HttpServer.mkSession w i (bufPop b (JS.blen line + 1)))
         (wr ++ [echoOf line]) a d).
Proof.
  intros Herr Hack Hwf Hlive Hline Hquit.
  unfold EchoServe.serveRound. cbn [session HttpServer.buf].
  destruct (line_cut b line rest Hwf Hlive Hline) as [-> _].
  rewrite (bufEq_with_newline _ _ Hquit).
  unfold soWrite, withBuf, withSession.
  cbn [session HttpServer.world HttpServer.incoming written acks destroyed].
  now rewrite Herr, Hack.
Qed.

Lemma quit_round
    (w : World) (i : list Event) (b : DynBuf) (wr : list Buffer)
    (a : nat -> option Exn) (d : bool) (rest : Buffer) :
  TCPConn.err (conn w) = None ->
  a (List.length wr) = None ->
  wellFormed b ->
  live b = JS.bytes "quit" ++ [x0a] ++ rest ->
  EchoServe.serveRound (mkServed (HttpServer.mkSession w i b) wr a d)
  = Returned Return
      (mkServed (HttpServer.mkSession w i (bufPop b 5))
         (wr ++ [JS.bytes "Bye." ++ [x0a]]) a true).
Proof.
  intros Herr Hack Hwf Hlive.
  unfold EchoServe.serveRound. cbn [session HttpServer.buf].
  destruct (line_cut b (JS.bytes "quit") rest Hwf Hlive eq_refl) as [-> _].
  change (bufEq (JS.bytes "quit" ++ [x0a]) (JS.bytes "quit" ++ [x0a])) with true.
  unfold soWrite, withBuf, withSession.
  cbn [session HttpServer.world HttpServer.incoming written acks destroyed].
  now rewrite Herr, Hack.
Qed.

Lemma echo_lines (lines : list Buffer) :
  forall (w : World) (i : list Event) (b : DynBuf) (wr : list Buffer)
         (d : bool) (rest : Buffer) (k : nat),
    TCPConn.err (conn w) = None ->
    wellFormed b ->
    live b = nlLines lines ++ rest ->
    forallb (noByte x0a) lines = true ->
    forallb (fun l => negb (bufEq l (JS.bytes "quit"))) lines = true ->
    exists b',
      EchoServe.serveLoop (List.length lines + k)
        (mkServed (HttpServer.mkSession w i b) wr allAcked d)
      = EchoServe.serveLoop k
          (mkServed (HttpServer.mkSession w i b') (wr ++ map echoOf lines)
             allAcked d)
      /\ wellFormed b' /\ live b' = rest.
Proof.
  induction lines as [|l lines IH];
    intros w i b wr d rest k Herr Hwf Hlive Hnl Hquit.
  - exists b. cbn. rewrite app_nil_r. auto.
  - cbn in Hnl, Hquit.
    apply andb_true_iff in Hnl. destruct Hnl as [Hl Hnl].
    apply andb_true_iff in Hquit. destruct Hquit as [Hq Hquit].
    apply negb_true_iff in Hq.
    cbn [nlLines flat_map] in Hlive. rewrite <- !app_assoc in Hlive.
    destruct (line_cut b l _ Hwf Hlive Hl) as (_ & Hwf1 & Hlive1).
    cbn [List.length Nat.add EchoServe.serveLoop].
    rewrite (echo_round w i b wr allAcked d l _ Herr eq_refl Hwf Hlive Hl Hq).
    destruct (IH w i _ (wr ++ [echoOf l]) d rest k Herr Hwf1 Hlive1 Hnl Hquit)
      as (b' & -> & Hwf' & Hlive').
    exists b'. rewrite <- app_assoc. cbn [map app]. auto.
Qed.

Lemma first_round_echo
    (sock : Socket) (data : Buffer) (later : list Event) (fuel : nat) :
  isEmpty data = false ->
  exists b,
    EchoServe.serveClient (S fuel) sock (DataEvent data :: later) allAcked
    = EchoServe.serveLoop fuel
        (mkServed (HttpServer.mkSession
                     (openConn (PauseCall :: ResumeCall :: sock) None [Resolved data])
                     later b) [] allAcked false)
    /\ wellFormed b /\ live b = data.
Proof.
  intros Hdata. unfold EchoServe.serveClient, accepted.
  cbn [EchoServe.serveLoop]. unfold EchoServe.serveRound.
  cbn [session HttpServer.buf].
  change (LineServer.cutMessage emptyBuf) with (@Ok (option Buffer) None, emptyBuf).
  cbv iota. unfold withBuf, withSession.
  cbn [session written acks destroyed HttpServer.world HttpServer.incoming].
  destruct (receive_chunk sock None [] data later emptyBuf [] allAcked false
              wellFormed_emptyBuf) as (b & Hrecv & Hwf & Hlive).
  change (soInit sock) with (openConn sock None []). rewrite Hrecv.
  destruct data as [|x data]; [discriminate|].
  change (JS.blen (x :: data) =? 0) with (Z.pos (Pos.of_succ_nat (List.length data)) =? 0).
  cbn [Z.eqb]. exists b. auto.
Qed.

End EchoLoop.

(** X26. The echo server answers every line of a chunk, in order: when
    the first chunk is made of lines closed by a newline (none of them
    ["quit"]) and of an unfinished rest, after one round per line the server
    has written [Echo: ] followed by each line, holds the rest in its
    accumulator, and is about to read again. *)
Theorem echo_server_answers_lines
    (sock : Socket) (lines : list Buffer) (rest : Buffer) (later : list Event) :
  forallb (noByte x0a) lines = true ->
  forallb (fun l => negb (bufEq l (JS.bytes "quit"))) lines = true ->
  isEmpty (nlLines lines ++ rest) = false ->
  exists s',
    EchoServe.serveClient (S (List.length lines)) sock
      (DataEvent (nlLines lines ++ rest) :: later) allAcked
    = Running s'
    /\ written s' = map echoOf lines
    /\ live (HttpServer.buf (session s')) = rest
    /\ HttpServer.incoming (session s') = later
    /\ destroyed s' = false.
Proof.
  intros Hnl Hquit Hdata.
  destruct (first_round_echo sock _ later (List.length lines) Hdata)
    as (b & -> & Hwf & Hlive).
  destruct (echo_lines lines
              (openConn (PauseCall :: ResumeCall :: sock) None
                 [Resolved (nlLines lines ++ rest)])
              later b [] false rest 0 eq_refl Hwf Hlive Hnl Hquit)
    as (b' & Hloop & Hwf' & Hlive').
  rewrite Nat.add_0_r in Hloop. rewrite Hloop.
  eexists. split; [reflexivity|]. cbn. auto.
Qed.

Lemma echo_server_answers_lines_witness :
  exists s',
    EchoServe.serveClient 3 []
      (DataEvent (nlLines [JS.bytes "ab"; JS.bytes ""] ++ JS.bytes "cd") :: [])
      allAcked
    = Running s'
    /\ written s' = map echoOf [JS.bytes "ab"; JS.bytes ""]
    /\ live (HttpServer.buf (session s')) = JS.bytes "cd"
    /\ HttpServer.incoming (session s') = []
    /\ destroyed s' = false.
Proof.
  apply (echo_server_answers_lines [] [JS.bytes "ab"; JS.bytes ""]
           (JS.bytes "cd") []);
    reflexivity.
Defined.

(** X27. The line ["quit"] ends the echo server: after answering the lines
    before it, the server writes ["Bye."] and a newline, destroys the socket
    and returns, leaving what follows the line in the accumulator. *)
Theorem echo_server_quits
    (sock : Socket) (lines : list Buffer) (rest : Buffer) (later : list Event) :
  forallb (noByte x0a) lines = true ->
  forallb (fun l => negb (bufEq l (JS.bytes "quit"))) lines = true ->
  exists s',
    EchoServe.serveClient (S (S (List.length lines))) sock
      (DataEvent (nlLines lines ++ JS.bytes "quit" ++ [x0a] ++ rest) :: later)
      allAcked
    = Returned tt s'
    /\ written s' = map echoOf lines ++ [JS.bytes "Bye." ++ [x0a]]
    /\ live (HttpServer.buf (session s')) = rest
    /\ destroyed s' = true.
Proof.
  intros Hnl Hquit.
  destruct (first_round_echo sock (nlLines lines ++ JS.bytes "quit" ++ [x0a] ++ rest)
              later (S (List.length lines)))
    as (b & -> & Hwf & Hlive).
  { destruct lines as [|[|x l] lines]; reflexivity. }
  destruct (echo_lines lines
              (openConn (PauseCall :: ResumeCall :: sock) None
                 [Resolved (nlLines lines ++ JS.bytes "quit" ++ [x0a] ++ rest)])
              later b [] false _ 1 eq_refl Hwf Hlive Hnl Hquit)
    as (b' & Hloop & Hwf' & Hlive').
  rewrite Nat.add_1_r in Hloop. rewrite Hloop.
  cbn [EchoServe.serveLoop].
  rewrite (quit_round
             (openConn (PauseCall :: ResumeCall :: sock) None
                [Resolved (nlLines lines ++ JS.bytes "quit" ++ [x0a] ++ rest)])
             later b' _ allAcked false rest eq_refl eq_refl Hwf' Hlive').
  eexists. split; [reflexivity|]. cbn [written session HttpServer.buf destroyed].
  repeat split; try reflexivity.
  destruct (line_cut b' (JS.bytes "quit") rest Hwf' Hlive' eq_refl) as (_ & _ & H).
  exact H.
Qed.

Lemma echo_server_quits_witness :
  exists s',
    EchoServe.serveClient 3 []
      (DataEvent (nlLines [JS.bytes "ab"] ++ JS.bytes "quit" ++ [x0a] ++ JS.bytes "cd")
         :: []) allAcked
    = Returned tt s'
    /\ written s' = map echoOf [JS.bytes "ab"] ++ [JS.bytes "Bye." ++ [x0a]]
    /\ live (HttpServer.buf (session s')) = JS.bytes "cd"
    /\ destroyed s' = true.
Proof.
  apply (echo_server_quits [] [JS.bytes "ab"] (JS.bytes "cd") []); reflexivity.
Defined.

Section AfterEnd.






End AfterEnd.





(** ** The response *)

(** X30. The answer of the default route: for every request whose target
    is not [/echo], on a connection without error whose next two writes are
    acknowledged, [writeHTTPResp] of what [handleReq] returns writes two
    chunks, the header block with status line [HTTP/1.1 200 OK], the
    [Server] header and [Content-Length: 13], then ["hello world."] and a
    newline; it does not read the connection nor touch the body of the
    request. *)
Theorem default_route_response
    (fuel : nat) (req : HttpServer.HTTPReq) (reqBody : HttpServer.BodyReader)
    (s : Served) :
  JS.strEq (JS.toString (HttpServer.HTTPReq.uri req)) (JS.str "/echo") = false ->
  TCPConn.err (conn (HttpServer.world (session s))) = None ->
  acks s (List.length (written s)) = None ->
  acks s (S (List.length (written s))) = None ->
  HttpServe.writeHTTPResp (S (S fuel)) (HttpServe.handleReq req) reqBody s
  = Returned
      (HttpServer.BodyReader.mk 13 (HttpServer.FromMemory hello true))
      (mkServed (session s) (written s ++ [helloHead; hello]) (acks s)
         (destroyed s)).
Proof.
  intros Huri Herr Hack1 Hack2.
  unfold HttpServe.handleReq. rewrite Huri.
  unfold HttpServe.writeHTTPResp.
  cbn [HttpServe.HTTPRes.body HttpServe.HTTPRes.headers HttpServe.HTTPRes.code].
  change (HttpServer.BodyReader.length
            (HttpServer.readerFromMemory (JS.bytes "hello world." ++ [x0a]))) with 13.
  cbn [Z.ltb Z.compare].
  match goal with
  | |- context [HttpServe.encodeHTTPRespHeaders ?r] =>
      change (HttpServe.encodeHTTPRespHeaders r) with helloHead
  end.
  unfold soWrite at 1. rewrite Herr, Hack1.
  cbn [HttpServe.writeBody HttpServer.read HttpServer.readerFromMemory
         HttpServer.BodyReader.read HttpServer.BodyReader.length session].
  change (JS.blen (JS.bytes "hello world." ++ [x0a]) =? 0) with false. cbv iota.
  unfold soWrite, withSession.
  cbn [session written acks destroyed].
  rewrite Herr, length_app, Nat.add_1_r, Hack2.
  cbn [HttpServer.read HttpServer.BodyReader.read session].
  change (JS.blen [] =? 0) with true. cbv iota.
  unfold withSession. cbn [session written acks destroyed].
  rewrite <- app_assoc. reflexivity.
Qed.

Lemma default_route_response_witness :
  HttpServe.writeHTTPResp 2 (HttpServe.handleReq (getRequest []))
    (HttpServer.readerFromConnLength 0) (accepted [] [] allAcked)
  = Returned
      (HttpServer.BodyReader.mk 13 (HttpServer.FromMemory hello true))
      (mkServed (session (accepted [] [] allAcked))
         (written (accepted [] [] allAcked) ++ [helloHead; hello])
         (acks (accepted [] [] allAcked)) (destroyed (accepted [] [] allAcked))).
Proof.
  apply (default_route_response 0 (getRequest [])
           (HttpServer.readerFromConnLength 0) (accepted [] [] allAcked));
    reflexivity.
Defined.

Section NumberText.

Lemma uintValue_acc (d : Decimal.uint) :
  forall acc : positive, uintValue d (Npos acc) = Npos (Pos.of_uint_acc d acc).
Proof.
  induction d as [|d IH|d IH|d IH|d IH|d IH|d IH|d IH|d IH|d IH|d IH];
    intros acc; cbn [uintValue Pos.of_uint_acc]; [reflexivity|..];
    rewrite <- IH; f_equal; lia.
Qed.

Lemma uintValue_of_uint (d : Decimal.uint) : uintValue d 0 = Pos.of_uint d.
Proof.
  induction d as [|d IH|d IH|d IH|d IH|d IH|d IH|d IH|d IH|d IH|d IH];
    cbn [uintValue Pos.of_uint]; [reflexivity|exact IH|..];
    apply uintValue_acc.
Qed.

Lemma decimalValue_uint (d : Decimal.uint) :
  forall acc : N,
    decimalValue (Z.of_N acc) (uintBytes d) = Some (Z.of_N (uintValue d acc)).
Proof.
  induction d as [|d IH|d IH|d IH|d IH|d IH|d IH|d IH|d IH|d IH|d IH];
    intros acc; cbn [uintBytes uintValue decimalValue]; [reflexivity|..];
    cbv zeta;
    match goal with
    | |- context [Z.of_N (Byte.to_N ?b) - 48] =>
        let v := eval cbv in (Z.of_N (Byte.to_N b) - 48) in
        change (Z.of_N (Byte.to_N b) - 48) with v
    end;
    cbn [Z.leb Z.compare Pos.compare Pos.compare_cont andb];
    rewrite <- IH; f_equal; lia.
Qed.

(** A normal numeral that starts with a zero is the numeral 0. *)
Lemma unorm_zero (d d' : Decimal.uint) :
  Decimal.unorm d = Decimal.D0 d' -> d' = Decimal.Nil.
Proof.
  induction d as [|d IH|d IH|d IH|d IH|d IH|d IH|d IH|d IH|d IH|d IH];
    cbn; intros H; try discriminate; [now injection H|].
  apply IH. exact H.
Qed.

Lemma to_uint_leading (p : positive) : hd x00 (uintBytes (Pos.to_uint p)) <> x30.
Proof.
  pose proof (DecimalPos.Unsigned.to_of (Pos.to_uint p)) as Hnorm.
  rewrite DecimalPos.Unsigned.of_to in Hnorm. cbn [N.to_uint] in Hnorm.
  pose proof (DecimalPos.Unsigned.to_uint_nonzero p) as Hnz.
  destruct (Pos.to_uint p) as [|d|d|d|d|d|d|d|d|d|d] eqn:E;
    cbn [uintBytes hd]; try discriminate.
  symmetry in Hnorm. apply unorm_zero in Hnorm. subst d. now destruct Hnz.
Qed.

Lemma writesNumber_to_uint (p : positive) :
  writesNumber (uintBytes (Pos.to_uint p)) (Zpos p).
Proof.
  split; [apply to_uint_leading|].
  change 0 with (Z.of_N 0). rewrite decimalValue_uint, uintValue_of_uint.
  now rewrite DecimalPos.Unsigned.of_to.
Qed.

(** What [writesNumber] admits for 12: the digits "12" and neither a
    padded nor an empty writing. *)
Lemma writesNumber_sample :
  writesNumber (JS.bytes "12") 12
  /\ ~ writesNumber (JS.bytes "012") 12
  /\ ~ writesNumber [] 12
  /\ ~ writesNumber (JS.bytes "1e1") 12.
Proof.
  repeat split; try discriminate.
  - intros [H _]. now apply H.
  - intros [_ H]. discriminate.
  - intros [_ H]. discriminate.
Qed.

Lemma uintBytes_string (d : Decimal.uint) :
  list_byte_of_string (NilEmpty.string_of_uint d) = uintBytes d.
Proof.
  induction d as [|d IH|d IH|d IH|d IH|d IH|d IH|d IH|d IH|d IH|d IH];
    [reflexivity|..];
    cbn [uintBytes]; rewrite <- IH; reflexivity.
Qed.

Lemma numberToString_pos (p : positive) :
  HttpServe.numberToString (Zpos p)
  = JS.toStringLatin1 (uintBytes (Pos.to_uint p)).
Proof.
  unfold HttpServe.numberToString, JS.str, JS.toStringLatin1.
  cbn [Z.to_int NilZero.string_of_int].
  replace (NilZero.string_of_uint (Pos.to_uint p))
    with (NilEmpty.string_of_uint (Pos.to_uint p)).
  - now rewrite uintBytes_string.
  - pose proof (DecimalPos.Unsigned.to_uint_nonnil p) as Hnn.
    now destruct (Pos.to_uint p).
Qed.

Lemma isAscii_digits (d : Decimal.uint) :
  isAscii (JS.toStringLatin1 (uintBytes d)) = true.
Proof.
  induction d as [|d IH|d IH|d IH|d IH|d IH|d IH|d IH|d IH|d IH|d IH];
    [reflexivity|..]; exact IH.
Qed.

Lemma isAscii_app (s t : JSString) :
  isAscii s = true -> isAscii t = true -> isAscii (s ++ t) = true.
Proof. unfold isAscii. intros Hs Ht. now rewrite forallb_app, Hs, Ht. Qed.

Lemma byteOfN_to_N (b : byte) : JS.byteOfN (Byte.to_N b) = b.
Proof.
  unfold JS.byteOfN. pose proof (Byte.to_N_bounded b).
  rewrite N.mod_small by lia. now rewrite Byte.of_to_N.
Qed.

Lemma to_N_byteOfN (c : N) : (c < 256)%N -> Byte.to_N (JS.byteOfN c) = c.
Proof.
  intros Hc. unfold JS.byteOfN. rewrite N.mod_small by assumption.
  destruct (Byte.of_N c) as [b|] eqn:E; [now apply Byte.to_of_N|].
  apply Byte.of_N_None_iff in E. lia.
Qed.

(** [Buffer.from] writes a string of code units below 128 one byte per
    unit. *)
Lemma fromString_ascii (s : JSString) :
  isAscii s = true -> JS.fromString s = map JS.byteOfN s.
Proof.
  induction s as [|c s IH]; [reflexivity|].
  cbn [isAscii forallb]. intros H. apply andb_true_iff in H.
  destruct H as [Hc Hs]. cbn [JS.fromString map].
  assert (JS.isHighSurrogate c = false) as ->.
  { unfold JS.isHighSurrogate. apply N.ltb_lt in Hc.
    destruct (N.leb_spec 0xD800 c); [lia|reflexivity]. }
  assert (JS.isLowSurrogate c = false) as ->.
  { unfold JS.isLowSurrogate. apply N.ltb_lt in Hc.
    destruct (N.leb_spec 0xDC00 c); [lia|reflexivity]. }
  unfold JS.utf8Bytes. change 0x80%N with 128%N. rewrite Hc.
  cbn [app]. f_equal. now apply IH.
Qed.

(** [toString] reads bytes below 128 one code unit per byte. *)
Lemma toString_ascii (s : JSString) :
  isAscii s = true -> JS.toString (map JS.byteOfN s) = s.
Proof.
  unfold JS.toString.
  induction s as [|c s IH]; [reflexivity|].
  cbn [isAscii forallb]. intros H. apply andb_true_iff in H.
  destruct H as [Hc Hs]. apply N.ltb_lt in Hc.
  cbn [map JS.utf8Decode]. rewrite to_N_byteOfN by lia.
  unfold JS.utf8Step. cbn [JS.needed JS.utf8Start N.eqb].
  unfold JS.utf8Lead.
  destruct (N.leb_spec c 0x7F) as [_|Hgt]; [|lia].
  cbn [app flat_map]. rewrite (IH Hs).
  unfold JS.utf16Units.
  destruct (N.ltb_spec c 0x10000) as [_|Hge]; [reflexivity|lia].
Qed.

(** The header block that [encodeHTTPRespHeaders] builds for the answer to
    [/echo] with a body of [Zpos p] bytes. *)
Lemma echo_head_bytes (p : positive) :
  HttpServe.encodeHTTPRespHeaders
    (HttpServe.HTTPRes.mk 200
       [JS.bytes "Server: my_first_http_server";
        JS.fromString
          (JS.str "Content-Length: " ++ HttpServe.numberToString (Zpos p))]
       HttpServe.RequestBody)
  = echoHead (uintBytes (Pos.to_uint p)).
Proof.
  rewrite numberToString_pos.
  set (num := uintBytes (Pos.to_uint p)).
  assert (isAscii (JS.toStringLatin1 num) = true) as Hnum
    by apply isAscii_digits.
  assert (isAscii (JS.str "Content-Length: " ++ JS.toStringLatin1 num) = true)
    as Hline by (apply isAscii_app; [reflexivity|exact Hnum]).
  unfold HttpServe.encodeHTTPRespHeaders.
  cbn [HttpServe.HTTPRes.headers map HttpServe.join].
  rewrite (fromString_ascii _ Hline), (toString_ascii _ Hline).
  change (JS.toString (JS.bytes "Server: my_first_http_server"))
    with (JS.str "Server: my_first_http_server").
  rewrite fromString_ascii.
  - rewrite !map_app. unfold JS.toStringLatin1 at 1.
    rewrite map_map, (map_ext _ (fun b => b) byteOfN_to_N), map_id.
    unfold echoHead. rewrite <- !app_assoc. reflexivity.
  - repeat (apply isAscii_app; [reflexivity|]).
    apply isAscii_app; [exact Hnum|reflexivity].
Qed.

End NumberText.

(** X7. The answer of the route [/echo] uses the reader of the request
    itself: when the accumulator holds exactly the [n] bytes of the body
    ([0 < n < 10^21], where a number is written with all its digits),
    [writeHTTPResp] writes two chunks: the header block
    ["HTTP/1.1 200 OK"], ["Server: my_first_http_server"],
    ["Content-Length: "] followed by the decimal writing of [n], each line
    closed by CR LF and one more CR LF at the end; then the [n] bytes. The
    reader it hands back, which is the reader of the request, has nothing
    left to read. *)
Theorem echo_route_response
    (fuel : nat) (req : HttpServer.HTTPReq) (s : Served) (n : Z) :
  JS.strEq (JS.toString (HttpServer.HTTPReq.uri req)) (JS.str "/echo") = true ->
  TCPConn.err (conn (HttpServer.world (session s))) = None ->
  acks s (List.length (written s)) = None ->
  acks s (S (List.length (written s))) = None ->
  wellFormed (HttpServer.buf (session s)) ->
  DynBuf.length (HttpServer.buf (session s)) = n ->
  0 < n < 10 ^ 21 ->
  exists num : Buffer,
    writesNumber num n
    /\ HttpServe.writeHTTPResp (S (S fuel)) (HttpServe.handleReq req)
         (HttpServer.readerFromConnLength n) s
       = Returned
           (HttpServer.BodyReader.mk n (HttpServer.FromConnLength 0))
           (mkServed
              (HttpServer.mkSession (HttpServer.world (session s))
                 (HttpServer.incoming (session s))
                 (bufPop (HttpServer.buf (session s)) n))
              (written s ++ [echoHead num; live (HttpServer.buf (session s))])
              (acks s) (destroyed s)).
Proof.
  intros Huri Herr Hack1 Hack2 Hwf Hlen [Hn _].
  destruct n as [|p|p]; [lia| |lia].
  exists (uintBytes (Pos.to_uint p)). split; [apply writesNumber_to_uint|].
  unfold HttpServe.handleReq. rewrite Huri.
  unfold HttpServe.writeHTTPResp.
  cbn [HttpServe.HTTPRes.body HttpServe.HTTPRes.headers HttpServe.HTTPRes.code
         HttpServer.readerFromConnLength HttpServer.BodyReader.length app].
  destruct (Z.ltb_spec (Zpos p) 0); [lia|].
  rewrite echo_head_bytes.
  set (head := echoHead _).
  unfold soWrite at 1. rewrite Herr, Hack1.
  cbn [HttpServe.writeBody session]. unfold HttpServer.readerFromConnLength.
  destruct (read_whole (session s) (Zpos p) (Zpos p) Hwf) as [-> _]; [lia|].
  pose proof (blen_live _ Hwf) as Hblen. rewrite Hlen in Hblen.
  rewrite Hblen, Hlen.
  destruct (Z.eqb_spec (Zpos p) 0); [lia|].
  unfold soWrite, withSession.
  cbn [session written acks destroyed HttpServer.world].
  rewrite Herr, length_app, Nat.add_1_r, Hack2.
  rewrite Z.sub_diag.
  cbn [HttpServer.read HttpServer.BodyReader.read session Z.leb Z.compare].
  change (JS.blen [] =? 0) with true. cbv iota.
  unfold withSession. cbn [session written acks destroyed].
  rewrite <- app_assoc. reflexivity.
Qed.

Lemma echo_route_response_witness :
  exists num : Buffer,
    writesNumber num 12
    /\ HttpServe.writeHTTPResp 2
         (HttpServe.handleReq
            (HttpServer.HTTPReq.mk (JS.str "POST") (JS.bytes "/echo")
               (JS.str "HTTP/1.1") [JS.bytes "Content-Length: 12"]))
         (HttpServer.readerFromConnLength 12)
         (mkServed (HttpServer.mkSession (soInit []) []
                      (snd (bufPush emptyBuf (JS.bytes "hello world!"))))
            [] allAcked false)
       = Returned
           (HttpServer.BodyReader.mk 12 (HttpServer.FromConnLength 0))
           (mkServed
              (HttpServer.mkSession (soInit []) []
                 (bufPop (snd (bufPush emptyBuf (JS.bytes "hello world!"))) 12))
              ([] ++ [echoHead num;
                      live (snd (bufPush emptyBuf (JS.bytes "hello world!")))])
              allAcked false).
Proof.
  apply (echo_route_response 0
           (HttpServer.HTTPReq.mk (JS.str "POST") (JS.bytes "/echo")
              (JS.str "HTTP/1.1") [JS.bytes "Content-Length: 12"])
           (mkServed (HttpServer.mkSession (soInit []) []
                        (snd (bufPush emptyBuf (JS.bytes "hello world!"))))
              [] allAcked false)
           12).
  - reflexivity.
  - reflexivity.
  - reflexivity.
  - reflexivity.
  - unfold wellFormed. vm_compute. split; discriminate.
  - reflexivity.
  - lia.
Defined.
